(** * Bookings store: a shallow embedding of [bookings.store.ts]

    The store keeps one immutable snapshot ([BookingsState]) inside a signal
    and replaces it through [state.update].  Adapter calls and the undo timer
    complete later, through callbacks that close over values of the call that
    issued them.  The embedding therefore has two layers:

    - pure functions on [BookingsState] for the derived views
      ([items], [visibleItems], [sortedVisibleItems], [totalPages],
      [pagedSortedVisibleItems]);
    - a [Store] configuration (snapshot, active timers, subscribed adapter
      calls with their captured values, the localStorage slot) on which every
      public method, every adapter completion and the timer expiry is a
      function, and [step] dispatches over them.

    Conventions of the model.
    - A JavaScript [number] is [number] below: NaN, the two infinities, or an
      exact rational.  Arithmetic is exact; the rounding of doubles, their
      overflow and the sign of zero are not represented.  The model and the
      host agree on sums, differences and products of integers as long as
      every value stays within [Number.MAX_SAFE_INTEGER], and on the
      quotient of a row count by a positive integer; statements that
      compute with page numbers keep to that range.
    - A JavaScript string is a [string] of code units below 256; [toLowerCase]
      and [trim] are the ECMAScript ones restricted to that range.
    - [Date.parse] is implementation-defined for most inputs and is taken as a
      variable of the section that needs it. *)

From Stdlib Require Import List Bool Arith ZArith QArith Qround Lia.
From Stdlib Require Import Permutation Sorted Lqa.
From Stdlib Require Import Ascii String.
Import ListNotations.

(* ================================================================== *)
(** ** JavaScript numbers *)
(* ================================================================== *)

Module Num.

Inductive number : Type :=
| NaN
| PosInf
| NegInf
| Fin (q : Q).

Definition of_Z (z : Z) : number := Fin (inject_Z z).
Definition of_nat (n : nat) : number := of_Z (Z.of_nat n).

Definition zero : number := of_Z 0.
Definition one : number := of_Z 1.

Definition Qsign (q : Q) : comparison := (Qnum q ?= 0)%Z.

(** [a + b] *)
Definition add (a b : number) : number :=
  match a, b with
  | NaN, _ | _, NaN => NaN
  | PosInf, NegInf | NegInf, PosInf => NaN
  | PosInf, _ | _, PosInf => PosInf
  | NegInf, _ | _, NegInf => NegInf
  | Fin x, Fin y => Fin (x + y)
  end.

Definition neg (a : number) : number :=
  match a with
  | NaN => NaN
  | PosInf => NegInf
  | NegInf => PosInf
  | Fin x => Fin (- x)
  end.

(** [a - b] *)
Definition sub (a b : number) : number := add a (neg b).

Definition inf_of_sign (c : comparison) : number :=
  match c with
  | Gt => PosInf
  | Lt => NegInf
  | Eq => NaN
  end.

Definition flip (c : comparison) : comparison := CompOpp c.

(** [a * b] *)
Definition mul (a b : number) : number :=
  match a, b with
  | NaN, _ | _, NaN => NaN
  | PosInf, PosInf | NegInf, NegInf => PosInf
  | PosInf, NegInf | NegInf, PosInf => NegInf
  | PosInf, Fin y | Fin y, PosInf => inf_of_sign (Qsign y)
  | NegInf, Fin y | Fin y, NegInf => inf_of_sign (flip (Qsign y))
  | Fin x, Fin y => Fin (x * y)
  end.

(** [a / b]; a finite non-zero value over zero is an infinity, [0 / 0] is
    NaN. *)
Definition div (a b : number) : number :=
  match a, b with
  | NaN, _ | _, NaN => NaN
  | (PosInf | NegInf), (PosInf | NegInf) => NaN
  | PosInf, Fin y =>
      match Qsign y with Lt => NegInf | _ => PosInf end
  | NegInf, Fin y =>
      match Qsign y with Lt => PosInf | _ => NegInf end
  | Fin _, (PosInf | NegInf) => zero
  | Fin x, Fin y =>
      match Qsign y with
      | Eq => inf_of_sign (Qsign x)
      | _ => Fin (x / y)
      end
  end.

(** [Math.ceil] *)
Definition ceil (a : number) : number :=
  match a with
  | Fin x => of_Z (Qceiling x)
  | _ => a
  end.

(** [a > b]; false as soon as one side is NaN. *)
Definition gtb (a b : number) : bool :=
  match a, b with
  | NaN, _ | _, NaN => false
  | PosInf, PosInf => false
  | PosInf, _ => true
  | _, PosInf => false
  | NegInf, _ => false
  | Fin _, NegInf => true
  | Fin x, Fin y => negb (Qle_bool x y)
  end.

(** [Math.max(a, b)] and [Math.min(a, b)]: NaN if either argument is. *)
Definition max (a b : number) : number :=
  match a, b with
  | NaN, _ | _, NaN => NaN
  | _, _ => if gtb b a then b else a
  end.

Definition min (a b : number) : number :=
  match a, b with
  | NaN, _ | _, NaN => NaN
  | _, _ => if gtb a b then b else a
  end.

(** Truthiness of a number: everything but NaN and zero. *)
Definition truthy (a : number) : bool :=
  match a with
  | NaN => false
  | Fin x => negb (Qeq_bool x 0)
  | _ => true
  end.

(** [a || b] on numbers. *)
Definition or_else (a b : number) : number := if truthy a then a else b.

(** A number is a positive integer. *)
Definition is_positive_integer (a : number) : bool :=
  match a with
  | Fin x => Qeq_bool x (inject_Z (Qfloor x)) && negb (Qle_bool x 0)
  | _ => false
  end.

(** ToIntegerOrInfinity of ECMAScript: NaN becomes 0, a finite value is
    truncated towards zero. *)
Inductive IntegerOrInfinity : Type :=
| MinusInfinity
| PlusInfinity
| Integer (z : Z).

Definition ToIntegerOrInfinity (a : number) : IntegerOrInfinity :=
  match a with
  | NaN => Integer 0
  | PosInf => PlusInfinity
  | NegInf => MinusInfinity
  | Fin x => Integer (Z.quot (Qnum x) (Zpos (Qden x)))
  end.

End Num.

Abbreviation number := Num.number.
Abbreviation IntegerOrInfinity := Num.IntegerOrInfinity.

(* ================================================================== *)
(** ** JavaScript arrays and strings *)
(* ================================================================== *)

(** The index that [Array.prototype.slice] derives from one of its
    arguments, for an array of length [len]. *)
Definition relative_index (len : Z) (r : IntegerOrInfinity) : Z :=
  match r with
  | Num.MinusInfinity => 0
  | Num.PlusInfinity => len
  | Num.Integer z =>
      if (z <? 0)%Z then Z.max (len + z) 0 else Z.min z len
  end.

(** [l.slice(start, end)] *)
Definition slice {A : Type} (l : list A) (start end_ : number) : list A :=
  let len := Z.of_nat (List.length l) in
  let k := relative_index len (Num.ToIntegerOrInfinity start) in
  let final := relative_index len (Num.ToIntegerOrInfinity end_) in
  firstn (Z.to_nat (final - k)) (skipn (Z.to_nat k) l).

(** [l.sort(cmp)]: the sort is stable, and an element is moved behind
    another one only when the comparator is positive on the pair; [gt a b]
    stands for [cmp(a, b) > 0] (a NaN result counts as 0).  For a comparator
    that is not a consistent order the result of the built-in is
    implementation-defined; the model is insertion from the right. *)
Fixpoint insert_sorted {A : Type} (gt : A -> A -> bool) (x : A) (l : list A)
  : list A :=
  match l with
  | [] => [x]
  | y :: l' => if gt x y then y :: insert_sorted gt x l' else x :: l
  end.

Definition sort {A : Type} (gt : A -> A -> bool) (l : list A) : list A :=
  fold_right (insert_sorted gt) [] l.

Close Scope Q_scope.
Open Scope string_scope.

Definition is_upper (c : ascii) : bool :=
  let n := nat_of_ascii c in
  (((65 <=? n) && (n <=? 90)) ||
   ((192 <=? n) && (n <=? 222) && negb (n =? 215)))%nat.

Definition lower_char (c : ascii) : ascii :=
  if is_upper c then ascii_of_nat (nat_of_ascii c + 32) else c.

(** [s.toLowerCase()] *)
Fixpoint toLowerCase (s : string) : string :=
  match s with
  | EmptyString => EmptyString
  | String c s' => String (lower_char c) (toLowerCase s')
  end.

(** White space and line terminators among the code units below 256. *)
Definition is_space (c : ascii) : bool :=
  let n := nat_of_ascii c in
  (((9 <=? n) && (n <=? 13)) || (n =? 32) || (n =? 160))%nat.

Fixpoint trimStart (s : string) : string :=
  match s with
  | EmptyString => EmptyString
  | String c s' => if is_space c then trimStart s' else s
  end.

Fixpoint trimEnd (s : string) : string :=
  match s with
  | EmptyString => EmptyString
  | String c s' =>
      match trimEnd s' with
      | EmptyString => if is_space c then EmptyString else String c EmptyString
      | t => String c t
      end
  end.

(** [s.trim()] *)
Definition trim (s : string) : string := trimEnd (trimStart s).

Fixpoint startsWith (s needle : string) {struct needle} : bool :=
  match needle, s with
  | EmptyString, _ => true
  | String _ _, EmptyString => false
  | String a n', String b s' => Ascii.eqb a b && startsWith s' n'
  end.

(** [hay.includes(needle)] *)
Fixpoint includes (hay needle : string) : bool :=
  startsWith hay needle ||
  match hay with
  | EmptyString => false
  | String _ hay' => includes hay' needle
  end.

(** [!s] on a string: only the empty string is falsy. *)
Definition is_empty (s : string) : bool :=
  match s with
  | EmptyString => true
  | _ => false
  end.

(* ================================================================== *)
(** ** Domain types ([booking.model.ts]) *)
(* ================================================================== *)

Inductive BookingStatus : Type :=
| NEW
| CONFIRMED
| IN_PROGRESS
| DONE
| CANCELLED.

Record Booking : Type := mkBooking {
  id : string;
  customerName : string;
  address : string;
  scheduledAtIso : string;
  status : BookingStatus;
  totalCad : number;
  paid : bool
}.

(** The request type of [BookingsApi.create]. *)
Record CreateBookingRequest : Type := mkCreateBookingRequest {
  req_customerName : string;
  req_address : string;
  req_scheduledAtIso : string;
  req_totalCad : number;
  req_paid : option bool
}.

(* ================================================================== *)
(** ** Store state ([bookings.store.ts]) *)
(* ================================================================== *)

(** ['ALL' | 'NEW' | 'CONFIRMED']; the last two are prefixed to keep them
    apart from the statuses of the same name. *)
Inductive BookingFilter : Type :=
| ALL
| FilterNEW
| FilterCONFIRMED.

Inductive SortKey : Type :=
| SCHEDULED_AT
| TOTAL.

Inductive SortDir : Type :=
| ASC
| DESC.

Record PendingDelete : Type := mkPendingDelete {
  booking : Booking;
  timerId : nat
}.

Record BookingsState : Type := mkState {
  filter : BookingFilter;
  page : number;
  pageSize : number;
  sortKey : SortKey;
  sortDir : SortDir;
  query : string;
  serverItems : list Booking;
  localItems : list Booking;
  pendingDelete : option PendingDelete;
  loading : bool;
  error : option string
}.

Definition initialState : BookingsState :=
  {| filter := ALL;
     page := Num.of_Z 1;
     pageSize := Num.of_Z 10;
     sortKey := SCHEDULED_AT;
     sortDir := DESC;
     query := "";
     serverItems := [];
     localItems := [];
     pendingDelete := None;
     loading := false;
     error := None |}.

(** Object spreads [{ ...s, field: v }], one per field that the store
    overrides. *)
Definition with_filter (v : BookingFilter) (s : BookingsState) :=
  mkState v (page s) (pageSize s) (sortKey s) (sortDir s) (query s)
          (serverItems s) (localItems s) (pendingDelete s) (loading s)
          (error s).

Definition with_page (v : number) (s : BookingsState) :=
  mkState (filter s) v (pageSize s) (sortKey s) (sortDir s) (query s)
          (serverItems s) (localItems s) (pendingDelete s) (loading s)
          (error s).

Definition with_pageSize (v : number) (s : BookingsState) :=
  mkState (filter s) (page s) v (sortKey s) (sortDir s) (query s)
          (serverItems s) (localItems s) (pendingDelete s) (loading s)
          (error s).

Definition with_sortKey (v : SortKey) (s : BookingsState) :=
  mkState (filter s) (page s) (pageSize s) v (sortDir s) (query s)
          (serverItems s) (localItems s) (pendingDelete s) (loading s)
          (error s).

Definition with_sortDir (v : SortDir) (s : BookingsState) :=
  mkState (filter s) (page s) (pageSize s) (sortKey s) v (query s)
          (serverItems s) (localItems s) (pendingDelete s) (loading s)
          (error s).

Definition with_query (v : string) (s : BookingsState) :=
  mkState (filter s) (page s) (pageSize s) (sortKey s) (sortDir s) v
          (serverItems s) (localItems s) (pendingDelete s) (loading s)
          (error s).

Definition with_serverItems (v : list Booking) (s : BookingsState) :=
  mkState (filter s) (page s) (pageSize s) (sortKey s) (sortDir s) (query s)
          v (localItems s) (pendingDelete s) (loading s) (error s).

Definition with_localItems (v : list Booking) (s : BookingsState) :=
  mkState (filter s) (page s) (pageSize s) (sortKey s) (sortDir s) (query s)
          (serverItems s) v (pendingDelete s) (loading s) (error s).

Definition with_pendingDelete (v : option PendingDelete) (s : BookingsState) :=
  mkState (filter s) (page s) (pageSize s) (sortKey s) (sortDir s) (query s)
          (serverItems s) (localItems s) v (loading s) (error s).

Definition with_loading (v : bool) (s : BookingsState) :=
  mkState (filter s) (page s) (pageSize s) (sortKey s) (sortDir s) (query s)
          (serverItems s) (localItems s) (pendingDelete s) v (error s).

Definition with_error (v : option string) (s : BookingsState) :=
  mkState (filter s) (page s) (pageSize s) (sortKey s) (sortDir s) (query s)
          (serverItems s) (localItems s) (pendingDelete s) (loading s) v.

(** [b.id === id] *)
Definition has_id (i : string) (b : Booking) : bool := String.eqb (id b) i.

Definition with_status (v : BookingStatus) (b : Booking) : Booking :=
  mkBooking (id b) (customerName b) (address b) (scheduledAtIso b) v
            (totalCad b) (paid b).

(** [b.status === f] for a filter other than [ALL]. *)
Definition status_is (f : BookingFilter) (b : Booking) : bool :=
  match f, status b with
  | FilterNEW, NEW => true
  | FilterCONFIRMED, CONFIRMED => true
  | _, _ => false
  end.

(* ------------------------------------------------------------------ *)
(** *** Derived views *)
(* ------------------------------------------------------------------ *)

(** [items] *)
Definition items (s : BookingsState) : list Booking :=
  (localItems s ++ serverItems s)%list.

(** The haystack of the search: a template literal with one space between
    the two fields. *)
Definition hay (b : Booking) : string :=
  toLowerCase (customerName b ++ " " ++ address b).

(** [visibleItems] *)
Definition visibleItems (s : BookingsState) : list Booking :=
  let f := filter s in
  let q := toLowerCase (trim (query s)) in
  let all := (localItems s ++ serverItems s)%list in
  let filtered :=
    match f with
    | ALL => all
    | _ => List.filter (status_is f) all
    end in
  if is_empty q then filtered
  else List.filter (fun b => includes (hay b) q) filtered.

(** [counts] *)
Record Counts : Type := mkCounts {
  count_all : nat;
  count_new : nat;
  count_confirmed : nat
}.

Definition counts (s : BookingsState) : Counts :=
  let all := (localItems s ++ serverItems s)%list in
  {| count_all := List.length all;
     count_new := List.length (List.filter (status_is FilterNEW) all);
     count_confirmed :=
       List.length (List.filter (status_is FilterCONFIRMED) all) |}.

Section Views.

(** [Date.parse] of the host. *)
Variable Date_parse : string -> number.

(** The sort key of a booking under [key]: [totalCad], or
    [Date.parse(scheduledAtIso) || 0]. *)
Definition sort_value (key : SortKey) (b : Booking) : number :=
  match key with
  | TOTAL => totalCad b
  | SCHEDULED_AT =>
      Num.or_else (Date_parse (scheduledAtIso b)) Num.zero
  end.

(** The comparator of [sortedVisibleItems]: [av - bv] for [ASC], [bv - av]
    otherwise. *)
Definition compare_bookings (key : SortKey) (dir : SortDir) (a b : Booking)
  : number :=
  let av := sort_value key a in
  let bv := sort_value key b in
  match dir with
  | ASC => Num.sub av bv
  | DESC => Num.sub bv av
  end.

(** [sortedVisibleItems] *)
Definition sortedVisibleItems (s : BookingsState) : list Booking :=
  let key := sortKey s in
  let dir := sortDir s in
  sort (fun a b => Num.gtb (compare_bookings key dir a b) Num.zero)
       (visibleItems s).

(** [totalRows] *)
Definition totalRows (s : BookingsState) : nat :=
  List.length (sortedVisibleItems s).

(** [totalPages] *)
Definition totalPages (s : BookingsState) : number :=
  let total := Num.of_nat (List.length (sortedVisibleItems s)) in
  Num.max Num.one (Num.ceil (Num.div total (pageSize s))).

(** [pagedSortedVisibleItems] *)
Definition pagedSortedVisibleItems (s : BookingsState) : list Booking :=
  let page := page s in
  let size := pageSize s in
  let start := Num.mul (Num.sub page Num.one) size in
  slice (sortedVisibleItems s) start (Num.add start size).

(** [pageRange] *)
Record PageRange : Type := mkPageRange {
  range_from : number;
  range_to : number;
  range_total : number
}.

Definition pageRange (s : BookingsState) : PageRange :=
  let total := List.length (sortedVisibleItems s) in
  match total with
  | O => mkPageRange Num.zero Num.zero Num.zero
  | _ =>
      let page := page s in
      let size := pageSize s in
      mkPageRange (Num.add (Num.mul (Num.sub page Num.one) size)
                           Num.one)
                  (Num.min (Num.mul page size) (Num.of_nat total))
                  (Num.of_nat total)
  end.

End Views.

(* ================================================================== *)
(** ** Exceptions, JSON values and the persisted preferences *)
(* ================================================================== *)

(** A thrown or rejected value, as far as [err instanceof Error] and
    [err.message] can tell. *)
Inductive Thrown : Type :=
| ErrorObject (message : string)
| NotAnError.

(** [err instanceof Error ? err.message : fallback] *)
Definition message_or (fallback : string) (err : Thrown) : string :=
  match err with
  | ErrorObject m => m
  | NotAnError => fallback
  end.

(** The outcome of evaluating code that may throw. *)
Inductive Completion (A : Type) : Type :=
| Normal (a : A)
| Throw (e : Thrown).

Arguments Normal {A} a.
Arguments Throw {A} e.

Definition bind {A B : Type} (c : Completion A) (k : A -> Completion B)
  : Completion B :=
  match c with
  | Normal a => k a
  | Throw e => Throw e
  end.

(** [try { c } catch { h }] *)
Definition try_catch {A : Type} (c : Completion A) (h : Thrown -> Completion A)
  : Completion A :=
  match c with
  | Normal a => Normal a
  | Throw e => h e
  end.

Notation "x <- c ;; k" := (bind c (fun x => k))
  (at level 61, c at next level, right associativity).

(** What [JSON.parse] can return. *)
#[local] Unset Elimination Schemes.
Inductive Json : Type :=
| JNull
| JBool (b : bool)
| JNumber (n : number)
| JString (s : string)
| JArray (l : list Json)
| JObject (fields : list (string * Json)).
#[local] Set Elimination Schemes.

(** The value of key [key] in an object literal: the last occurrence wins. *)
Fixpoint last_field (key : string) (fields : list (string * Json))
  : option Json :=
  match fields with
  | [] => None
  | (k, v) :: rest =>
      match last_field key rest with
      | Some v' => Some v'
      | None => if String.eqb k key then Some v else None
      end
  end.

(** [ui.key] for one of the five preference keys.  Reading a property of
    [null] throws a TypeError.  On a boolean, number, string or array the
    result is [undefined] or an inherited method ([filter] on an array),
    neither of which is a string or a number: both are [None]. *)
Definition get_property (ui : Json) (key : string)
  : Completion (option Json) :=
  match ui with
  | JNull => Throw (ErrorObject "TypeError")
  | JObject fields => Normal (last_field key fields)
  | _ => Normal None
  end.

(** The content of localStorage under [UI_STATE_KEY], seen through
    [getItem] and [JSON.parse]. *)
Inductive Stored : Type :=
| NoItem                 (* getItem returns null *)
| EmptyItem              (* the empty string *)
| Unparsable             (* a string on which JSON.parse throws *)
| Parsable (j : Json).   (* a string that JSON.parse maps to [j] *)

Definition filter_name (f : BookingFilter) : string :=
  match f with
  | ALL => "ALL"
  | FilterNEW => "NEW"
  | FilterCONFIRMED => "CONFIRMED"
  end.

Definition sortKey_name (k : SortKey) : string :=
  match k with
  | SCHEDULED_AT => "SCHEDULED_AT"
  | TOTAL => "TOTAL"
  end.

Definition sortDir_name (d : SortDir) : string :=
  match d with
  | ASC => "ASC"
  | DESC => "DESC"
  end.

(** [JSON.stringify] writes a non-finite number as [null]. *)
Definition json_of_number (n : number) : Json :=
  match n with
  | Num.Fin q => JNumber (Num.Fin q)
  | _ => JNull
  end.

(** The object that [saveUiState] serialises, as [JSON.parse] reads it
    back. *)
Definition ui_json (s : BookingsState) : Json :=
  JObject [ ("filter", JString (filter_name (filter s)));
            ("sortKey", JString (sortKey_name (sortKey s)));
            ("sortDir", JString (sortDir_name (sortDir s)));
            ("pageSize", json_of_number (pageSize s));
            ("query", JString (query s)) ].

(** [ui.filter === 'NEW' || ui.filter === 'CONFIRMED' || ui.filter === 'ALL'] *)
Definition valid_filter (v : option Json) : option BookingFilter :=
  match v with
  | Some (JString s) =>
      if String.eqb s "NEW" then Some FilterNEW
      else if String.eqb s "CONFIRMED" then Some FilterCONFIRMED
      else if String.eqb s "ALL" then Some ALL
      else None
  | _ => None
  end.

(** [ui.sortKey === 'TOTAL' || ui.sortKey === 'SCHEDULED_AT'] *)
Definition valid_sortKey (v : option Json) : option SortKey :=
  match v with
  | Some (JString s) =>
      if String.eqb s "TOTAL" then Some TOTAL
      else if String.eqb s "SCHEDULED_AT" then Some SCHEDULED_AT
      else None
  | _ => None
  end.

(** [ui.sortDir === 'ASC' || ui.sortDir === 'DESC'] *)
Definition valid_sortDir (v : option Json) : option SortDir :=
  match v with
  | Some (JString s) =>
      if String.eqb s "ASC" then Some ASC
      else if String.eqb s "DESC" then Some DESC
      else None
  | _ => None
  end.

(** [typeof ui.pageSize === 'number' && ui.pageSize > 0] *)
Definition valid_pageSize (v : option Json) : option number :=
  match v with
  | Some (JNumber n) => if Num.gtb n Num.zero then Some n else None
  | _ => None
  end.

(** [typeof ui.query === 'string'] *)
Definition valid_query (v : option Json) : option string :=
  match v with
  | Some (JString s) => Some s
  | _ => None
  end.

(** [c ? v : d] with the test and the value folded into an option. *)
Definition or_default {A : Type} (v : option A) (d : A) : A :=
  match v with
  | Some a => a
  | None => d
  end.

(** The callback that [loadUiState] passes to [state.update]. *)
Definition restore (ui : Json) (s : BookingsState)
  : Completion BookingsState :=
  f <- get_property ui "filter" ;;
  k <- get_property ui "sortKey" ;;
  d <- get_property ui "sortDir" ;;
  n <- get_property ui "pageSize" ;;
  q <- get_property ui "query" ;;
  Normal
    {| filter := or_default (valid_filter f) (filter s);
       page := Num.of_Z 1;
       pageSize := or_default (valid_pageSize n) (pageSize s);
       sortKey := or_default (valid_sortKey k) (sortKey s);
       sortDir := or_default (valid_sortDir d) (sortDir s);
       query := or_default (valid_query q) (query s);
       serverItems := serverItems s;
       localItems := localItems s;
       pendingDelete := pendingDelete s;
       loading := loading s;
       error := error s |}.

(** [JSON.parse(raw)] for a raw string that passed [if (!raw) return]. *)
Definition JSON_parse (stored : Stored) : Completion Json :=
  match stored with
  | Parsable j => Normal j
  | _ => Throw (ErrorObject "SyntaxError")
  end.

(** [loadUiState], as a function of the stored item and the snapshot. *)
Definition loadUiState (stored : Stored) (s : BookingsState)
  : Completion BookingsState :=
  match stored with
  | NoItem | EmptyItem => Normal s
  | _ =>
      try_catch (ui <- JSON_parse stored ;; restore ui s)
                (fun _ => Normal s)
  end.

(* ================================================================== *)
(** ** The store with its timers and subscriptions *)
(* ================================================================== *)

(** An adapter call the store has subscribed to and whose callback has not
    run yet, with the values the callback closes over. *)
Inductive Request : Type :=
| ReqList
| ReqCreate (req : CreateBookingRequest)
| ReqConfirm (bid : string)
| ReqDelete (bid : string) (tid : nat) (s0 : BookingsState).

(** The store as the session sees it.  Timer handles are the positive
    integers in the order [setTimeout] hands them out, so a handle is never
    reused.  The store is provided in the root injector and lives as long as
    the session; [takeUntilDestroyed] never cuts a subscription short. *)
Record Store : Type := mkStore {
  state : BookingsState;
  timers : list nat;              (* handles of the running timeouts *)
  nextTimerId : nat;              (* the handle [setTimeout] returns next *)
  subscriptions : list Request;   (* adapter calls in flight, oldest first *)
  localStorage : Stored
}.

(** [this.state.update(f)] *)
Definition update (f : BookingsState -> BookingsState) (w : Store) : Store :=
  mkStore (f (state w)) (timers w) (nextTimerId w) (subscriptions w)
          (localStorage w).

(** [clearTimeout(t)] *)
Definition clearTimeout (t : nat) (w : Store) : Store :=
  mkStore (state w) (List.filter (fun x => negb (Nat.eqb x t)) (timers w))
          (nextTimerId w) (subscriptions w) (localStorage w).

(** [window.setTimeout(..., 5000)]: the handle is fresh. *)
Definition setTimeout (w : Store) : nat * Store :=
  (nextTimerId w,
   mkStore (state w) (nextTimerId w :: timers w) (S (nextTimerId w))
           (subscriptions w) (localStorage w)).

(** [api.call(...).subscribe(...)] *)
Definition subscribe (r : Request) (w : Store) : Store :=
  mkStore (state w) (timers w) (nextTimerId w)
          (subscriptions w ++ [r])%list (localStorage w).

(** [saveUiState] *)
Definition saveUiState (w : Store) : Store :=
  mkStore (state w) (timers w) (nextTimerId w) (subscriptions w)
          (Parsable (ui_json (state w))).

(** The constructor: [loadUiState] on the initial snapshot. *)
Definition construct (stored : Stored) : Completion Store :=
  s <- loadUiState stored initialState ;;
  Normal (mkStore s [] 1 [] stored).

(* ------------------------------------------------------------------ *)
(** *** Public methods: the part that runs when the method is called *)
(* ------------------------------------------------------------------ *)

Definition delete (bid : string) (w : Store) : Store :=
  let s0 := state w in
  let wasInServer := existsb (has_id bid) (serverItems s0) in
  let all := (localItems s0 ++ serverItems s0)%list in
  match List.find (has_id bid) all with
  | None => w
  | Some booking =>
      (* optimistic remove *)
      let w1 :=
        update (fun s =>
                  with_error None
                    (with_serverItems
                       (List.filter (fun b => negb (has_id bid b))
                                    (serverItems s))
                       (with_localItems
                          (List.filter (fun b => negb (has_id bid b))
                                       (localItems s))
                          s)))
               w in
      let w2 :=
        match pendingDelete (state w1) with
        | Some prev => clearTimeout (timerId prev) w1
        | None => w1
        end in
      let (tid, w3) := setTimeout w2 in
      let w4 :=
        update (with_pendingDelete (Some (mkPendingDelete booking tid))) w3 in
      if wasInServer then subscribe (ReqDelete bid tid s0) w4 else w4
  end.

Definition undoDelete (w : Store) : Store :=
  match pendingDelete (state w) with
  | None => w
  | Some pd =>
      update (fun s =>
                with_page (Num.of_Z 1)
                  (with_pendingDelete None
                     (with_localItems (booking pd :: localItems s) s)))
             (clearTimeout (timerId pd) w)
  end.

Definition setQuery (q : string) (w : Store) : Store :=
  saveUiState (update (fun s => with_page (Num.of_Z 1) (with_query q s)) w).

Definition setPage (p : number) (w : Store) : Store :=
  update (with_page p) w.

Definition prevPage (w : Store) : Store :=
  update (fun s => with_page (Num.max Num.one (Num.sub (page s) Num.one)) s)
         w.

Definition load (w : Store) : Store :=
  subscribe ReqList
    (update (fun s => with_error None (with_loading true s)) w).

Definition add (b : Booking) (w : Store) : Store :=
  update (fun s => with_localItems (b :: localItems s) s) w.

(** [b.id === id ? { ...b, status: 'CONFIRMED' } : b] *)
Definition confirm_one (bid : string) (b : Booking) : Booking :=
  if has_id bid b then with_status CONFIRMED b else b.

Definition confirm (bid : string) (w : Store) : Store :=
  let w1 :=
    update (fun s =>
              with_error None
                (with_serverItems (List.map (confirm_one bid) (serverItems s))
                   (with_localItems
                      (List.map (confirm_one bid) (localItems s)) s)))
           w in
  let wasInServer := existsb (has_id bid) (serverItems (state w1)) in
  if wasInServer then subscribe (ReqConfirm bid) w1 else w1.

(** [a === b] on sort keys. *)
Definition sortKey_eqb (a b : SortKey) : bool :=
  match a, b with
  | SCHEDULED_AT, SCHEDULED_AT | TOTAL, TOTAL => true
  | _, _ => false
  end.

(** The state update of [setSort]. *)
Definition sort_update (k : SortKey) (s : BookingsState) : BookingsState :=
  let nextDir :=
    if sortKey_eqb (sortKey s) k
    then match sortDir s with ASC => DESC | DESC => ASC end
    else DESC in
  with_page (Num.of_Z 1) (with_sortDir nextDir (with_sortKey k s)).

Definition setSort (k : SortKey) (w : Store) : Store :=
  saveUiState (update (sort_update k) w).

Definition setPageSize (n : number) (w : Store) : Store :=
  saveUiState
    (update (fun s => with_page (Num.of_Z 1) (with_pageSize n s)) w).

Definition setFilter (f : BookingFilter) (w : Store) : Store :=
  saveUiState (update (fun s => with_page (Num.of_Z 1) (with_filter f s)) w).

Definition create (req : CreateBookingRequest) (w : Store) : Store :=
  subscribe (ReqCreate req)
    (update (fun s => with_error None (with_loading true s)) w).

(* ------------------------------------------------------------------ *)
(** *** Callbacks: adapter completions and the undo timer *)
(* ------------------------------------------------------------------ *)

(** What an adapter call completes with. *)
Inductive Response : Type :=
| ListOk (l : list Booking)
| BookingOk (b : Booking)
| DeleteOk
| Failure (err : Thrown).

(** [tap] of [load] *)
Definition load_next (l : list Booking) (w : Store) : Store :=
  update (fun s => with_loading false (with_serverItems l s)) w.

(** [catchError] of [load] *)
Definition load_error (err : Thrown) (w : Store) : Store :=
  let msg := message_or "Unknown error" err in
  update (fun s => with_loading false (with_error (Some msg) s)) w.

Definition create_next (created : Booking) (w : Store) : Store :=
  update (fun s =>
            with_page (Num.of_Z 1)
              (with_loading false
                 (with_serverItems (created :: serverItems s) s)))
         w.

Definition create_error (err : Thrown) (w : Store) : Store :=
  let msg := message_or "Create failed" err in
  update (fun s => with_loading false (with_error (Some msg) s)) w.

Definition confirm_next (bid : string) (updated : Booking) (w : Store)
  : Store :=
  update (fun s =>
            with_serverItems
              (List.map (fun b => if has_id bid b then updated else b)
                        (serverItems s))
              s)
         w.

Definition confirm_error (err : Thrown) (w : Store) : Store :=
  let msg := message_or "Confirm failed" err in
  update (with_error (Some msg)) w.

(** [catchError] of [delete]: the rollback to the snapshot [s0] that the
    call captured. *)
Definition delete_error (tid : nat) (s0 : BookingsState) (err : Thrown)
  (w : Store) : Store :=
  let msg := message_or "Delete failed" err in
  update (fun _ => with_pendingDelete None (with_error (Some msg) s0))
         (clearTimeout tid w).

(** The callback of the undo timer. *)
Definition timer_callback (w : Store) : Store :=
  update (with_pendingDelete None) w.

(** The callback of request [r] on response [resp]; [None] when the
    response is not one that the call can produce. *)
Definition callback (r : Request) (resp : Response) (w : Store)
  : option Store :=
  match r, resp with
  | ReqList, ListOk l => Some (load_next l w)
  | ReqList, Failure e => Some (load_error e w)
  | ReqCreate _, BookingOk b => Some (create_next b w)
  | ReqCreate _, Failure e => Some (create_error e w)
  | ReqConfirm bid, BookingOk b => Some (confirm_next bid b w)
  | ReqConfirm _, Failure e => Some (confirm_error e w)
  | ReqDelete _ _ _, DeleteOk => Some w
  | ReqDelete _ tid s0, Failure e => Some (delete_error tid s0 e w)
  | _, _ => None
  end.

(** Removes the [k]-th element. *)
Fixpoint remove_nth {A : Type} (k : nat) (l : list A) : list A :=
  match l, k with
  | [], _ => []
  | _ :: l', O => l'
  | x :: l', S k' => x :: remove_nth k' l'
  end.

(** The [k]-th call in flight completes with [resp]. *)
Definition complete (k : nat) (resp : Response) (w : Store) : option Store :=
  match nth_error (subscriptions w) k with
  | None => None
  | Some r =>
      callback r resp
        (mkStore (state w) (timers w) (nextTimerId w)
                 (remove_nth k (subscriptions w)) (localStorage w))
  end.

(** The timeout with handle [t] expires. *)
Definition expire (t : nat) (w : Store) : option Store :=
  if existsb (Nat.eqb t) (timers w)
  then Some (timer_callback (clearTimeout t w))
  else None.

(* ------------------------------------------------------------------ *)
(** *** Everything that can happen to a store *)
(* ------------------------------------------------------------------ *)

Inductive Event : Type :=
| EvLoad
| EvCreate (req : CreateBookingRequest)
| EvConfirm (bid : string)
| EvDelete (bid : string)
| EvUndoDelete
| EvAdd (b : Booking)
| EvSetQuery (q : string)
| EvSetSort (k : SortKey)
| EvSetPageSize (n : number)
| EvSetFilter (f : BookingFilter)
| EvSetPage (p : number)
| EvNextPage
| EvPrevPage
| EvComplete (k : nat) (resp : Response)
| EvExpire (t : nat).

Section Transitions.

Variable Date_parse : string -> number.

Definition nextPage (w : Store) : Store :=
  let totalPages := totalPages Date_parse (state w) in
  update (fun s => with_page (Num.min (Num.add (page s) Num.one) totalPages) s)
         w.

(** One event; [None] when the event cannot happen in [w] (no such call in
    flight, no such timer running). *)
Definition step (w : Store) (ev : Event) : option Store :=
  match ev with
  | EvLoad => Some (load w)
  | EvCreate req => Some (create req w)
  | EvConfirm bid => Some (confirm bid w)
  | EvDelete bid => Some (delete bid w)
  | EvUndoDelete => Some (undoDelete w)
  | EvAdd b => Some (add b w)
  | EvSetQuery q => Some (setQuery q w)
  | EvSetSort k => Some (setSort k w)
  | EvSetPageSize n => Some (setPageSize n w)
  | EvSetFilter f => Some (setFilter f w)
  | EvSetPage p => Some (setPage p w)
  | EvNextPage => Some (nextPage w)
  | EvPrevPage => Some (prevPage w)
  | EvComplete k resp => complete k resp w
  | EvExpire t => expire t w
  end.

(** A sequence of events, oldest first. *)
Fixpoint run (w : Store) (evs : list Event) : option Store :=
  match evs with
  | [] => Some w
  | ev :: evs' =>
      match step w ev with
      | Some w' => run w' evs'
      | None => None
      end
  end.

(** The stores that a session can be in: constructed from some stored
    preferences, then any sequence of events. *)
Inductive reachable : Store -> Prop :=
| reachable_construct :
    forall stored w, construct stored = Normal w -> reachable w
| reachable_step :
    forall w ev w', reachable w -> step w ev = Some w' -> reachable w'.

End Transitions.

(* ------------------------------------------------------------------ *)
(** *** Predicates the properties are stated with *)
(* ------------------------------------------------------------------ *)

Definition ids (l : list Booking) : list string := List.map id l.

(** Does [i] occur among the ids of [l]? *)
Definition mem_id (i : string) (l : list Booking) : bool :=
  existsb (has_id i) l.

(** The id sets of [localItems] and [serverItems] are disjoint. *)
Definition partitioned (s : BookingsState) : Prop :=
  forall i, In i (ids (localItems s)) -> In i (ids (serverItems s)) -> False.


(** The status filter on one booking: [ALL] lets every booking pass. *)
Definition passes_filter (f : BookingFilter) (b : Booking) : bool :=
  match f with
  | ALL => true
  | _ => status_is f b
  end.

(** The search on one booking. *)
Definition matches_query (q : string) (b : Booking) : bool :=
  includes (hay b) (toLowerCase (trim q)).

(** Membership in [visibleItems] is membership in [items] plus a test that
    reads [filter] and [query] only. *)
Definition shown (f : BookingFilter) (q : string) (b : Booking) : bool :=
  passes_filter f b && matches_query q b.

(** The store that [delete bid] leaves when [find] returned [b]. *)
Definition deleted (bid : string) (b : Booking) (w : Store) : Store :=
  let s := state w in
  let cleared :=
    match pendingDelete s with
    | Some prev => timers (clearTimeout (timerId prev) w)
    | None => timers w
    end in
  mkStore
    (with_pendingDelete (Some (mkPendingDelete b (nextTimerId w)))
       (with_error None
          (with_serverItems
             (List.filter (fun x => negb (has_id bid x)) (serverItems s))
             (with_localItems
                (List.filter (fun x => negb (has_id bid x)) (localItems s))
                s))))
    (nextTimerId w :: cleared) (S (nextTimerId w)) (subscriptions w)
    (localStorage w).

(** The partition of ids holds in the current snapshot and in every
    snapshot that a delete call in flight would roll back to. *)
Definition partition_kept (w : Store) : Prop :=
  partitioned (state w) /\
  forall bid tid s0,
    In (ReqDelete bid tid s0) (subscriptions w) -> partitioned s0.

(** The value stored under [key], when the stored item parses to an object
    that has the key. *)
Definition stored_field (stored : Stored) (key : string) : option Json :=
  match stored with
  | Parsable (JObject fields) => last_field key fields
  | _ => None
  end.

(** The other direction. *)
Definition opposite (d : SortDir) : SortDir :=
  match d with
  | ASC => DESC
  | DESC => ASC
  end.

(** The first booking of [l] with id [i], the one [Array.prototype.find]
    returns. *)
Definition first_with_id (i : string) (l : list Booking) : option Booking :=
  List.find (has_id i) l.

(** The store never compares the id of a booking that enters one collection
    with the ids of the other collection.  [admissible w ev] says that the
    event brings no such clash: the booking given to [add], the pending
    booking that [undoDelete] puts back, the list delivered to [load] and
    the booking delivered to [create] carry ids that the other collection
    does not hold; the booking delivered to [confirm] carries the confirmed
    id or an id that [localItems] does not hold. *)
Definition admissible (w : Store) (ev : Event) : bool :=
  let s := state w in
  match ev with
  | EvAdd b => negb (mem_id (id b) (serverItems s))
  | EvUndoDelete =>
      match pendingDelete s with
      | Some pd => negb (mem_id (id (booking pd)) (serverItems s))
      | None => true
      end
  | EvComplete k resp =>
      match nth_error (subscriptions w) k, resp with
      | Some ReqList, ListOk l =>
          forallb (fun b => negb (mem_id (id b) (localItems s))) l
      | Some (ReqCreate _), BookingOk b => negb (mem_id (id b) (localItems s))
      | Some (ReqConfirm bid), BookingOk b =>
          has_id bid b || negb (mem_id (id b) (localItems s))
      | _, _ => true
      end
  | _ => true
  end.

Section GuardedRuns.

Variable Date_parse : string -> number.

(** [run] restricted to admissible events. *)
Fixpoint guarded_run (w : Store) (evs : list Event) : option Store :=
  match evs with
  | [] => Some w
  | ev :: evs' =>
      if admissible w ev then
        match step Date_parse w ev with
        | Some w' => guarded_run w' evs'
        | None => None
        end
      else None
  end.

End GuardedRuns.

(* ------------------------------------------------------------------ *)
(** *** The search as the specification words it *)
(* ------------------------------------------------------------------ *)

(** The concatenation of [customerName] and [address], lower-cased. *)
Definition spec_hay (b : Booking) : string :=
  toLowerCase (customerName b ++ address b).

(** [items] filtered by the status filter, then by a case-insensitive
    substring match of the query against [spec_hay]. *)
Definition spec_visibleItems (s : BookingsState) : list Booking :=
  let by_status := List.filter (passes_filter (filter s)) (items s) in
  List.filter (fun b => includes (spec_hay b) (toLowerCase (trim (query s))))
              by_status.

(** [needle] occurs in [hay]. *)
Definition substring_of (needle hay : string) : Prop :=
  exists pre post, hay = pre ++ needle ++ post.

(** Every character of [s] is white space. *)
Fixpoint all_space (s : string) : bool :=
  match s with
  | EmptyString => true
  | String c s' => is_space c && all_space s'
  end.

(* ------------------------------------------------------------------ *)
(** *** Predicates for the further properties *)
(* ------------------------------------------------------------------ *)

(** The undo slot and the timers agree: the timer of a pending delete is
    running, every running handle was handed out by [setTimeout], and no
    handle runs twice. *)
Definition timers_sound (w : Store) : Prop :=
  (forall pd, pendingDelete (state w) = Some pd ->
              In (timerId pd) (timers w)) /\
  (forall t, In t (timers w) -> t < nextTimerId w) /\
  NoDup (timers w).

(** The four methods that call [saveUiState]. *)
Definition is_setter (ev : Event) : bool :=
  match ev with
  | EvSetQuery _ | EvSetSort _ | EvSetPageSize _ | EvSetFilter _ => true
  | _ => false
  end.

(** [Number.MAX_SAFE_INTEGER]: up to it, in absolute value, the integers are
    doubles and adding or subtracting 1 is exact, so the exact arithmetic of
    [Num] and the arithmetic of the host agree. *)
Definition MAX_SAFE_INTEGER : Z := 2 ^ 53 - 1.

(** A page size of at least 1, finite or not.  For such a size the quotient
    [rows / pageSize] of the host lies between 0 and [rows]: it neither
    overflows nor leaves the range of exact integers. *)
Definition at_least_one (n : number) : bool :=
  match n with
  | Num.PosInf => true
  | Num.Fin q => Qle_bool 1 q
  | _ => false
  end.

(** A page size that survives [JSON.stringify] and the test of
    [loadUiState]: finite and greater than 0. *)
Definition persistable (n : number) : bool :=
  match n with
  | Num.Fin _ => Num.gtb n Num.zero
  | _ => false
  end.

Section SortOrder.

Variable Date_parse : string -> number.

(** The sort key of [b] is a finite number. *)
Definition finite_key (key : SortKey) (b : Booking) : Prop :=
  exists q, sort_value Date_parse key b = Num.Fin q.

(** [a] may stand before [b]: both keys are finite, and the key of [a] is
    not greater ([ASC]) or not smaller ([DESC]) than the key of [b]. *)
Definition in_order (key : SortKey) (dir : SortDir) (a b : Booking) : Prop :=
  match sort_value Date_parse key a, sort_value Date_parse key b with
  | Num.Fin x, Num.Fin y =>
      match dir with
      | ASC => (x <= y)%Q
      | DESC => (y <= x)%Q
      end
  | _, _ => False
  end.

(** The sort key of [b] is the number [v]. *)
Definition has_key (key : SortKey) (v : Q) (b : Booking) : bool :=
  match sort_value Date_parse key b with
  | Num.Fin x => Qeq_bool x v
  | _ => false
  end.

End SortOrder.

(* ================================================================== *)
(** ** The pages ([booking-create.page.ts], [bookings-list.page.ts]) *)
(* ================================================================== *)

Module BookingCreatePage.

(** The value of the reactive form: five non-nullable text controls. *)
Record FormValue : Type := mkFormValue {
  customerName : string;
  address : string;
  unitType : string;
  scheduledDate : string;   (* yyyy-mm-dd *)
  scheduledTime : string    (* hh:mm *)
}.

(** The controls as the form builder creates them. *)
Definition initialValue : FormValue :=
  mkFormValue "" "" "1bed" "" "".

(** [Validators.required] on a text control: the value is not the empty
    string.  The test reads the raw text; white space counts. *)
Definition required (v : string) : bool := negb (is_empty v).

(** [form.invalid]: some control fails its validator. *)
Definition invalid (v : FormValue) : bool :=
  negb (required (customerName v) && required (address v)
        && required (unitType v) && required (scheduledDate v)
        && required (scheduledTime v)).

(** [priceCad] *)
Definition priceCad (v : FormValue) : number :=
  if String.eqb (unitType v) "2bed" then Num.of_Z 220 else Num.of_Z 180.

(** [isNaN(n)] on a number. *)
Definition isNaN (n : number) : bool :=
  match n with
  | Num.NaN => true
  | _ => false
  end.

Section Submit.

(** [new Date(text).getTime()], which parses like [Date.parse], and
    [toISOString] on a valid time value. *)
Variable Date_parse : string -> number.
Variable toISOString : number -> string.

(** The request that [submit] builds from a form value whose date parsed to
    [t]. *)
Definition request (v : FormValue) (t : number) : CreateBookingRequest :=
  {| req_customerName := trim (customerName v);
     req_address := trim (address v);
     req_scheduledAtIso := toISOString t;
     req_totalCad := priceCad v;
     req_paid := Some false |}.

(** [submit]: the store afterwards, and whether the router was sent to
    [/bookings].  Marking the controls as touched is not represented. *)
Definition submit (v : FormValue) (w : Store) : Store * bool :=
  if invalid v then (w, false)
  else
    let t := Date_parse (scheduledDate v ++ "T" ++ scheduledTime v ++ ":00") in
    if isNaN t then (w, false)
    else (create (request v t) w, true).

End Submit.

End BookingCreatePage.

Module BookingsListPage.

(** The constructor: load when the store holds no booking. *)
Definition construct (w : Store) : Store :=
  if Nat.eqb (List.length (items (state w))) 0 then load w else w.

(** [refresh] *)
Definition refresh (w : Store) : Store := load w.

Section SetPageSize.

(** [Number(value)] on the text of the page-size selector. *)
Variable Number : string -> number.

(** [setPageSize(value: string)] *)
Definition setPageSize (value : string) (w : Store) : Store :=
  setPageSize (Number value) w.

End SetPageSize.

End BookingsListPage.

(** The methods that change how the list is viewed: the four setters and
    the three page moves. *)
Definition is_view_event (ev : Event) : bool :=
  match ev with
  | EvSetQuery _ | EvSetSort _ | EvSetPageSize _ | EvSetFilter _
  | EvSetPage _ | EvNextPage | EvPrevPage => true
  | _ => false
  end.

(* ------------------------------------------------------------------ *)
(** *** Sample data *)
(* ------------------------------------------------------------------ *)

Module Sample.

Definition b1 : Booking :=
  {| id := "1"; customerName := "Ann Lee"; address := "123 Main St";
     scheduledAtIso := "2026-01-10T09:00:00.000Z"; status := NEW;
     totalCad := Num.of_Z 100; paid := false |}.

Definition b2 : Booking :=
  {| id := "2"; customerName := "Bob Ray"; address := "9 Oak Ave";
     scheduledAtIso := "2026-01-11T09:00:00.000Z"; status := CONFIRMED;
     totalCad := Num.of_Z 200; paid := true |}.

(** A second record under the id of [b2], as the server may hold it after
    a change made elsewhere. *)
Definition b2' : Booking :=
  {| id := "2"; customerName := "Bob Ray"; address := "9 Oak Ave";
     scheduledAtIso := "2026-01-11T09:00:00.000Z"; status := DONE;
     totalCad := Num.of_Z 200; paid := true |}.

Definition b3 : Booking :=
  {| id := "3"; customerName := "Al"; address := "ice St";
     scheduledAtIso := "2026-01-12T09:00:00.000Z"; status := NEW;
     totalCad := Num.of_Z 180; paid := false |}.

(** Stored preferences with a fractional page size and a filter outside
    the enumeration. *)
Definition odd_prefs : Stored :=
  Parsable (JObject [ ("pageSize", JNumber (Num.Fin (5 # 2)));
                      ("filter", JString "DONE");
                      ("sortDir", JString "ASC") ]).

(** A host whose [Date.parse] understands nothing. *)
Definition no_dates : string -> number := fun _ => Num.NaN.

(** A fresh store with nothing persisted. *)
Definition fresh : Store := mkStore initialState [] 1 [] NoItem.

(** A store that has loaded [b1] and [b2]. *)
Definition loaded : Store :=
  mkStore (with_serverItems [b1; b2] initialState) [] 1 [] NoItem.

(** The loaded bookings, one row per page. *)
Definition one_per_page : BookingsState :=
  with_pageSize (Num.of_Z 1) (state loaded).

(** Booking 3 alone, searched for [alice]. *)
Definition alice : BookingsState :=
  with_query "alice" (with_serverItems [b3] initialState).

(** A refresh that overtakes a delete still in flight, then the undo: the
    list call returns the record of id 2 as the server holds it. *)
Definition race : list Event :=
  [ EvLoad; EvComplete 0 (ListOk [b1; b2]);
    EvDelete "2";
    EvLoad; EvComplete 1 (ListOk [b1; b2']);
    EvUndoDelete ].

(** A session in which no id enters a collection that the other one
    holds: load, delete and undo of booking 2, a local booking 3, a failed
    confirm of booking 1 and a failed delete of booking 1. *)
Definition calm : list Event :=
  [ EvLoad; EvComplete 0 (ListOk [b1; b2]);
    EvDelete "2"; EvUndoDelete;
    EvAdd b3;
    EvConfirm "1"; EvComplete 1 (Failure NotAnError);
    EvDelete "1"; EvComplete 1 (Failure (ErrorObject "network error")) ].

(** A filled-in create form, and one whose name is blank but not empty. *)
Definition form : BookingCreatePage.FormValue :=
  BookingCreatePage.mkFormValue " Cy Fox " "5 Elm Rd" "2bed" "2026-02-01"
                                "10:30".

Definition blank_name_form : BookingCreatePage.FormValue :=
  BookingCreatePage.mkFormValue "  " "5 Elm Rd" "1bed" "2026-02-01" "10:30".

(** A host that reads every date text as the same instant and prints every
    instant as the same text. *)
Definition one_date : string -> number := fun _ => Num.of_Z 1769941800000.

Definition one_iso : number -> string := fun _ => "2026-02-01T10:30:00.000Z".

(** The booking the server makes of [form]. *)
Definition b4 : Booking :=
  {| id := "4"; customerName := "Cy Fox"; address := "5 Elm Rd";
     scheduledAtIso := "2026-02-01T10:30:00.000Z"; status := NEW;
     totalCad := Num.of_Z 220; paid := false |}.

End Sample.

(* ================================================================== *)
(** * Properties *)
(* ================================================================== *)

(* ------------------------------------------------------------------ *)
(** ** The runtime model on samples *)
(* ------------------------------------------------------------------ *)

Example number_samples :
  Num.div (Num.of_Z 3) Num.zero = Num.PosInf /\
  Num.div Num.zero Num.zero = Num.NaN /\
  Num.max Num.one Num.NaN = Num.NaN /\
  Num.ceil (Num.Fin (5 # 2)) = Num.of_Z 3 /\
  Num.is_positive_integer (Num.of_Z 10) = true /\
  Num.is_positive_integer (Num.Fin (5 # 2)) = false /\
  Num.ToIntegerOrInfinity (Num.Fin (-5 # 2)) = Num.Integer (-2) /\
  slice [1; 2; 3; 4; 5]%nat (Num.Fin (5 # 2)) (Num.of_Z (-1)) = [3; 4]%nat /\
  slice [1; 2; 3]%nat Num.NaN Num.PosInf = [1; 2; 3]%nat.
Proof. vm_compute. repeat split. Qed.

Example string_samples :
  trim "  Main St  " = "Main St" /\
  toLowerCase "123 Main St" = "123 main st" /\
  includes "ann lee 123 main st" "main st" = true /\
  includes "bob ray 9 oak ave" "main st" = false /\
  sort Nat.ltb [3; 1; 2; 1]%nat = [3; 2; 1; 1]%nat.
Proof. vm_compute. repeat split. Qed.

(* ------------------------------------------------------------------ *)
(** ** Shared lemmas on subscriptions and timers *)
(* ------------------------------------------------------------------ *)

Lemma nth_error_snoc : forall (A : Type) (l : list A) (x : A),
  nth_error (l ++ [x])%list (List.length l) = Some x.
Proof.
  intros A l x. induction l as [|y l IH]; simpl; [reflexivity | exact IH].
Qed.

Lemma clearTimeout_not_in : forall t w, ~ In t (timers (clearTimeout t w)).
Proof.
  intros t w H. unfold clearTimeout in H. simpl in H.
  apply filter_In in H. destruct H as [_ H].
  rewrite Nat.eqb_refl in H. discriminate.
Qed.

Lemma mem_id_In : forall i l, mem_id i l = true <-> In i (ids l).
Proof.
  intros i l. unfold mem_id, ids. rewrite existsb_exists, in_map_iff.
  split; intros [b [H1 H2]]; exists b.
  - unfold has_id in H2. apply String.eqb_eq in H2. tauto.
  - unfold has_id. split; [tauto|]. apply String.eqb_eq. tauto.
Qed.

(* ------------------------------------------------------------------ *)
(** ** add *)
(* ------------------------------------------------------------------ *)

(** C10: [add] puts its argument at the head of [localItems] whatever its
    id, even one that [localItems] or [serverItems] already holds; it
    subscribes to no adapter call, writes nothing to localStorage, starts or
    stops no timer, and leaves every other field of the state as it was. *)
Theorem add_prepends_unguarded : forall (b : Booking) (w : Store),
  let s := state w in
  let w' := add b w in
  let s' := state w' in
  localItems s' = b :: localItems s /\
  serverItems s' = serverItems s /\
  filter s' = filter s /\
  page s' = page s /\
  pageSize s' = pageSize s /\
  sortKey s' = sortKey s /\
  sortDir s' = sortDir s /\
  query s' = query s /\
  pendingDelete s' = pendingDelete s /\
  loading s' = loading s /\
  error s' = error s /\
  subscriptions w' = subscriptions w /\
  localStorage w' = localStorage w /\
  timers w' = timers w /\
  nextTimerId w' = nextTimerId w.
Proof.
  intros b w. cbn. repeat split.
Qed.

(** [add] with an id that both collections hold already. *)
Example add_duplicate_id :
  let w := add Sample.b2 (add Sample.b2 Sample.loaded) in
  localItems (state w) = [Sample.b2; Sample.b2] /\
  serverItems (state w) = [Sample.b1; Sample.b2].
Proof. split; reflexivity. Qed.

(* ------------------------------------------------------------------ *)
(** ** setSort *)
(* ------------------------------------------------------------------ *)

Lemma sortKey_eqb_eq : forall a b, sortKey_eqb a b = true <-> a = b.
Proof. intros [] []; simpl; split; congruence. Qed.

(** C9: [setSort k] keeps the key and flips the direction when [k] is the
    current key, selects [k] with direction [DESC] otherwise, and sets the
    page to 1 in both cases.  On a store sorted by [SCHEDULED_AT], a first
    [setSort TOTAL] gives [TOTAL]/[DESC] and a second one [TOTAL]/[ASC]. *)
Theorem setSort_toggles : forall (k : SortKey) (w : Store),
  let s := state w in
  let s' := state (setSort k w) in
  sortKey s' = k /\
  page s' = Num.of_Z 1 /\
  (sortKey s = k -> sortDir s' = opposite (sortDir s)) /\
  (sortKey s <> k -> sortDir s' = DESC) /\
  (sortKey s = SCHEDULED_AT ->
   let s1 := state (setSort TOTAL w) in
   let s2 := state (setSort TOTAL (setSort TOTAL w)) in
   sortKey s1 = TOTAL /\ sortDir s1 = DESC /\ page s1 = Num.of_Z 1 /\
   sortKey s2 = TOTAL /\ sortDir s2 = ASC /\ page s2 = Num.of_Z 1).
Proof.
  intros k w. cbn. unfold sort_update. cbn.
  repeat split.
  - intros H. apply sortKey_eqb_eq in H. rewrite H.
    destruct (sortDir (state w)); reflexivity.
  - intros H. destruct (sortKey_eqb (sortKey (state w)) k) eqn:E;
      [apply sortKey_eqb_eq in E; contradiction | reflexivity].
  - rewrite H. reflexivity.
  - rewrite H. reflexivity.
Qed.

Lemma setSort_toggles_witness :
  sortKey (state Sample.fresh) = SCHEDULED_AT /\
  sortDir (state (setSort TOTAL Sample.fresh)) = DESC /\
  sortDir (state (setSort TOTAL (setSort TOTAL Sample.fresh))) = ASC /\
  sortDir (state (setSort SCHEDULED_AT Sample.fresh)) = ASC.
Proof.
  pose proof (setSort_toggles TOTAL Sample.fresh) as H.
  pose proof (setSort_toggles SCHEDULED_AT Sample.fresh) as H'.
  cbv zeta in H, H'.
  destruct H as (_ & _ & _ & Hne & Hpart).
  destruct H' as (_ & _ & Heq & _ & _).
  split; [reflexivity|].
  split; [apply Hne; discriminate|].
  split; [apply (Hpart eq_refl)|].
  apply (Heq eq_refl).
Defined.

(* ------------------------------------------------------------------ *)
(** ** load *)
(* ------------------------------------------------------------------ *)

Lemma complete_last : forall w r resp,
  complete (List.length (subscriptions w)) resp (subscribe r w)
  = callback r resp w.
Proof.
  intros w r resp. unfold complete, subscribe. simpl.
  rewrite nth_error_snoc. f_equal.
  destruct w as [s ts n subs ls]. simpl. f_equal.
  induction subs as [|x subs IH]; simpl; [reflexivity | now rewrite IH].
Qed.

(** C5: [load] subscribes to the list call; when that call fails, [loading]
    is false, [error] holds the message of the failure -- the [message] of
    the [Error] that was thrown, and the text [Unknown error] when the
    failure is not an [Error] -- and [serverItems] and [localItems] are
    what they were before [load] was called.  The failure handler never
    touches the two collections, whatever happened in between. *)
Theorem load_failure_keeps_items : forall (w : Store) (err : Thrown),
  let k := List.length (subscriptions w) in
  nth_error (subscriptions (load w)) k = Some ReqList /\
  (exists w', complete k (Failure err) (load w) = Some w' /\
     loading (state w') = false /\
     error (state w') = Some (message_or "Unknown error" err) /\
     error (state w')
       = Some (match err with
               | ErrorObject m => m
               | NotAnError => "Unknown error"
               end) /\
     serverItems (state w') = serverItems (state w) /\
     localItems (state w') = localItems (state w)) /\
  (forall w2 : Store,
     loading (state (load_error err w2)) = false /\
     error (state (load_error err w2))
       = Some (message_or "Unknown error" err) /\
     error (state (load_error err w2))
       = Some (match err with
               | ErrorObject m => m
               | NotAnError => "Unknown error"
               end) /\
     serverItems (state (load_error err w2)) = serverItems (state w2) /\
     localItems (state (load_error err w2)) = localItems (state w2)).
Proof.
  intros w err k. split; [|split].
  - unfold load, subscribe. simpl. apply nth_error_snoc.
  - eexists. split.
    + unfold load. subst k.
      change (subscriptions w)
        with (subscriptions
                (update (fun s => with_error None (with_loading true s)) w)).
      rewrite complete_last. simpl. reflexivity.
    + destruct err; cbn; repeat split.
  - intros w2. destruct err; cbn; repeat split.
Qed.

Lemma load_failure_keeps_items_witness :
  exists w1 w2,
    complete 0 (Failure (ErrorObject "offline")) (load Sample.loaded)
      = Some w1 /\
    error (state w1) = Some "offline" /\
    loading (state w1) = false /\
    serverItems (state w1) = [Sample.b1; Sample.b2] /\
    complete 0 (Failure NotAnError) (load Sample.loaded) = Some w2 /\
    error (state w2) = Some "Unknown error" /\
    serverItems (state w2) = [Sample.b1; Sample.b2].
Proof.
  destruct (load_failure_keeps_items Sample.loaded (ErrorObject "offline"))
    as (_ & (w1 & Hc1 & Hl1 & _ & He1 & Hs1 & _) & _).
  destruct (load_failure_keeps_items Sample.loaded NotAnError)
    as (_ & (w2 & Hc2 & _ & _ & He2 & Hs2 & _) & _).
  exists w1, w2.
  split; [exact Hc1|]. split; [exact He1|]. split; [exact Hl1|].
  split; [exact Hs1|]. split; [exact Hc2|]. split; [exact He2|].
  exact Hs2.
Defined.

(** A failed list call on a store that shows data: the data stay. *)
Example load_failure_sample :
  run Sample.no_dates Sample.loaded
      [EvLoad; EvComplete 0 (Failure (ErrorObject "offline"))]
  = Some (mkStore
            (with_error (Some "offline")
               (with_serverItems [Sample.b1; Sample.b2] initialState))
            [] 1 [] NoItem).
Proof. reflexivity. Qed.

(* ------------------------------------------------------------------ *)
(** ** confirm *)
(* ------------------------------------------------------------------ *)

Lemma existsb_map_confirm_one : forall bid l,
  existsb (has_id bid) (List.map (confirm_one bid) l)
  = existsb (has_id bid) l.
Proof.
  intros bid l. induction l as [|b l IH]; simpl; [reflexivity|].
  rewrite IH. f_equal. unfold confirm_one.
  destruct (has_id bid b) eqn:E; [|exact E]. exact E.
Qed.

Lemma confirm_one_status : forall bid b,
  id (confirm_one bid b) = id b /\
  (id b = bid -> confirm_one bid b = with_status CONFIRMED b).
Proof.
  intros bid b. unfold confirm_one, has_id. split.
  - destruct (String.eqb (id b) bid); reflexivity.
  - intros H. rewrite H, String.eqb_refl. reflexivity.
Qed.

(** C3: [confirm bid] on an id that [serverItems] holds subscribes to the
    confirm call; when that call fails, [error] holds the message of the
    failure -- the [message] of the [Error] that was thrown, and the text
    [Confirm failed] when the failure is not an [Error] -- and nothing is
    rolled back: both collections are the ones the
    optimistic update produced, so every booking with that id has status
    [CONFIRMED], and each booking that [serverItems] held under that id is
    there with its status rewritten.  The failure handler changes [error]
    only, in every store. *)
Theorem confirm_failure_keeps_status :
  forall (w : Store) (bid : string) (err : Thrown),
  mem_id bid (serverItems (state w)) = true ->
  let k := List.length (subscriptions w) in
  nth_error (subscriptions (confirm bid w)) k = Some (ReqConfirm bid) /\
  (exists w', complete k (Failure err) (confirm bid w) = Some w' /\
     error (state w') = Some (message_or "Confirm failed" err) /\
     error (state w')
       = Some (match err with
               | ErrorObject m => m
               | NotAnError => "Confirm failed"
               end) /\
     serverItems (state w')
       = List.map (confirm_one bid) (serverItems (state w)) /\
     localItems (state w')
       = List.map (confirm_one bid) (localItems (state w)) /\
     (forall b, In b (items (state w')) -> id b = bid ->
                status b = CONFIRMED) /\
     (forall b, In b (serverItems (state w)) -> id b = bid ->
                In (with_status CONFIRMED b) (serverItems (state w')))) /\
  (forall w2 : Store,
     state (confirm_error err w2)
     = with_error (Some (message_or "Confirm failed" err)) (state w2) /\
     error (state (confirm_error err w2))
     = Some (match err with
             | ErrorObject m => m
             | NotAnError => "Confirm failed"
             end)).
Proof.
  intros w bid err Hin k.
  assert (Hsub : confirm bid w
                 = subscribe (ReqConfirm bid)
                     (update (fun s =>
                        with_error None
                          (with_serverItems
                             (List.map (confirm_one bid) (serverItems s))
                             (with_localItems
                                (List.map (confirm_one bid) (localItems s))
                                s))) w)).
  { unfold confirm. cbn. rewrite existsb_map_confirm_one.
    unfold mem_id in Hin. rewrite Hin. reflexivity. }
  split; [|split].
  - rewrite Hsub. unfold subscribe. simpl. apply nth_error_snoc.
  - eexists. split.
    + rewrite Hsub. subst k.
      match goal with
      | |- complete _ _ (subscribe _ ?u) = _ =>
          change (subscriptions w) with (subscriptions u)
      end.
      rewrite complete_last. simpl. reflexivity.
    + cbn. split; [reflexivity|]. split; [destruct err; reflexivity|].
      repeat split.
      * intros b Hb Hid. unfold items in Hb. cbn in Hb.
        apply in_app_or in Hb.
        assert (Hmap : exists b0, confirm_one bid b0 = b).
        { destruct Hb as [Hb|Hb]; apply in_map_iff in Hb;
            destruct Hb as [b0 [Hb0 _]]; exists b0; exact Hb0. }
        destruct Hmap as [b0 Hb0].
        destruct (confirm_one_status bid b0) as [Hid0 Hst].
        rewrite Hb0 in Hid0. rewrite <- Hid0 in Hst.
        rewrite <- Hb0. rewrite (Hst Hid). reflexivity.
      * intros b Hb Hid. apply in_map_iff. exists b. split; [|exact Hb].
        apply (confirm_one_status bid b). exact Hid.
  - intros w2. split; [reflexivity | destruct err; reflexivity].
Qed.

Lemma confirm_failure_keeps_status_witness :
  mem_id "1" (serverItems (state Sample.loaded)) = true /\
  exists w1 w2,
    complete 0 (Failure (ErrorObject "server said no"))
             (confirm "1" Sample.loaded) = Some w1 /\
    error (state w1) = Some "server said no" /\
    In (with_status CONFIRMED Sample.b1) (serverItems (state w1)) /\
    complete 0 (Failure NotAnError) (confirm "1" Sample.loaded) = Some w2 /\
    error (state w2) = Some "Confirm failed" /\
    In (with_status CONFIRMED Sample.b1) (serverItems (state w2)).
Proof.
  split; [reflexivity|].
  destruct (confirm_failure_keeps_status Sample.loaded "1"
              (ErrorObject "server said no") eq_refl)
    as (_ & (w1 & Hc1 & _ & He1 & _ & _ & _ & Hin1) & _).
  destruct (confirm_failure_keeps_status Sample.loaded "1" NotAnError
              eq_refl)
    as (_ & (w2 & Hc2 & _ & He2 & _ & _ & _ & Hin2) & _).
  exists w1, w2.
  split; [exact Hc1|]. split; [exact He1|].
  split; [apply Hin1; [simpl; auto | reflexivity]|].
  split; [exact Hc2|]. split; [exact He2|].
  apply Hin2; [simpl; auto | reflexivity].
Defined.

(* ------------------------------------------------------------------ *)
(** ** Pagination *)
(* ------------------------------------------------------------------ *)

Section Pagination.

Local Open Scope Z_scope.

Lemma max_of_Z : forall a b,
  Num.max (Num.of_Z a) (Num.of_Z b) = Num.of_Z (Z.max a b).
Proof.
  intros a b. unfold Num.max, Num.of_Z, Num.gtb, Qle_bool, inject_Z. simpl.
  rewrite !Z.mul_1_r.
  destruct (Z.leb_spec b a) as [H|H]; simpl.
  - rewrite Z.max_l by lia. reflexivity.
  - rewrite Z.max_r by lia. reflexivity.
Qed.

Lemma Qceiling_div : forall len n, 0 < n ->
  Qceiling (inject_Z len / inject_Z n) = (len + n - 1) / n.
Proof.
  intros len n Hn. destruct n as [|p|p]; try lia.
  unfold Qceiling, Qfloor, Qdiv, Qmult, Qinv, Qopp, inject_Z. simpl.
  rewrite Z.mul_1_r.
  pose proof (Z.div_mod (- len) (Z.pos p) ltac:(lia)) as H1.
  pose proof (Z.mod_pos_bound (- len) (Z.pos p) ltac:(lia)) as H2.
  apply (Z.div_unique_pos _ _ _ (Z.pos p - 1 - (- len) mod Z.pos p));
    [lia|].
  lia.
Qed.

Lemma div_of_Z : forall len n, 0 < n ->
  Num.div (Num.of_Z len) (Num.of_Z n) = Num.Fin (inject_Z len / inject_Z n).
Proof.
  intros len n Hn. unfold Num.div, Num.of_Z, Num.Qsign. simpl.
  destruct (Z.compare_spec n 0); try lia. reflexivity.
Qed.

Ltac num_unfold :=
  cbv [Num.mul Num.sub Num.add Num.neg Num.of_Z Num.of_nat Num.one
       Num.ToIntegerOrInfinity Qmult Qplus Qopp inject_Z Qnum Qden Pos.mul].

Lemma start_index : forall a n,
  Num.ToIntegerOrInfinity
    (Num.mul (Num.sub (Num.of_Z a) Num.one) (Num.of_Z n))
  = Num.Integer ((a - 1) * n).
Proof.
  intros a n. num_unfold. f_equal. rewrite Z.quot_1_r. ring.
Qed.

Lemma end_index : forall a n,
  Num.ToIntegerOrInfinity
    (Num.add (Num.mul (Num.sub (Num.of_Z a) Num.one) (Num.of_Z n))
             (Num.of_Z n))
  = Num.Integer ((a - 1) * n + n).
Proof.
  intros a n. num_unfold. f_equal. rewrite Z.quot_1_r. ring.
Qed.

Lemma slice_window : forall (A : Type) (l : list A) (a b : Z),
  0 <= a <= b ->
  let len := Z.of_nat (List.length l) in
  firstn (Z.to_nat (Z.min b len - Z.min a len))
         (skipn (Z.to_nat (Z.min a len)) l)
  = firstn (Z.to_nat (b - a)) (skipn (Z.to_nat a) l).
Proof.
  intros A l a b Hab len.
  destruct (Z_le_gt_dec a len) as [Ha|Ha].
  - rewrite (Z.min_l a len) by lia.
    destruct (Z_le_gt_dec b len) as [Hb|Hb].
    + rewrite (Z.min_l b len) by lia. reflexivity.
    + rewrite (Z.min_r b len) by lia.
      rewrite !firstn_all2; [reflexivity| |];
        rewrite length_skipn; subst len; lia.
  - rewrite !(Z.min_r _ len) by lia.
    rewrite !skipn_all2 by (subst len; lia).
    rewrite !firstn_nil. reflexivity.
Qed.

Lemma chunks_concat : forall (A : Type) (l : list A) (n k : nat),
  flat_map (fun p => firstn n (skipn ((p - 1) * n) l)) (seq 1 k)
  = firstn (k * n) l.
Proof.
  intros A l n k. induction k as [|k IH].
  - reflexivity.
  - rewrite seq_S, flat_map_app, IH. simpl flat_map. rewrite app_nil_r.
    replace (1 + k - 1)%nat with k by lia.
    rewrite <- (firstn_skipn (k * n) (firstn (S k * n) l)).
    rewrite firstn_firstn.
    replace (Nat.min (k * n) (S k * n)) with (k * n)%nat by lia.
    f_equal. rewrite skipn_firstn_comm. f_equal; [lia | f_equal; lia].
Qed.

Lemma sortedVisibleItems_page : forall dp p s,
  sortedVisibleItems dp (with_page p s) = sortedVisibleItems dp s.
Proof. reflexivity. Qed.

Lemma paged_chunk : forall dp s (n : Z) (p : nat),
  0 < n -> (1 <= p)%nat -> pageSize s = Num.of_Z n ->
  pagedSortedVisibleItems dp (with_page (Num.of_nat p) s)
  = firstn (Z.to_nat n)
           (skipn ((p - 1) * Z.to_nat n) (sortedVisibleItems dp s)).
Proof.
  intros dp s n p Hn Hp Hsize. unfold pagedSortedVisibleItems.
  rewrite sortedVisibleItems_page.
  change (page (with_page (Num.of_nat p) s)) with (Num.of_nat p).
  change (pageSize (with_page (Num.of_nat p) s)) with (pageSize s).
  rewrite Hsize. unfold slice, Num.of_nat.
  rewrite start_index, end_index. unfold relative_index.
  assert (H0 : 0 <= (Z.of_nat p - 1) * n) by nia.
  destruct (Z.ltb_spec ((Z.of_nat p - 1) * n) 0) as [H|_]; [lia|].
  destruct (Z.ltb_spec ((Z.of_nat p - 1) * n + n) 0) as [H|_]; [lia|].
  rewrite slice_window by lia.
  f_equal; [f_equal; lia|]. f_equal. nia.
Qed.


(** C6: when [pageSize] is the positive integer [n], [totalPages] is
    [max(1, ceil(rows / n))], where [rows] is the length of
    [sortedVisibleItems], and the pages 1 to [totalPages] of
    [pagedSortedVisibleItems], everything but [page] held fixed,
    concatenate to [sortedVisibleItems]: every element occurs once, in
    order. *)
Theorem pagination_covers :
  forall (Date_parse : string -> number) (s : BookingsState) (n : Z),
  0 < n ->
  pageSize s = Num.of_Z n ->
  let rows := sortedVisibleItems Date_parse s in
  let len := Z.of_nat (List.length rows) in
  let pages := Z.max 1 (Qceiling (inject_Z len / inject_Z n)%Q) in
  totalPages Date_parse s = Num.of_Z pages /\
  pages = Z.max 1 ((len + n - 1) / n) /\
  List.concat (List.map (fun p => pagedSortedVisibleItems Date_parse
                               (with_page (Num.of_nat p) s))
                   (seq 1 (Z.to_nat pages)))
  = rows.
Proof.
  intros dp s n Hn Hsize rows len pages.
  assert (Hpages : pages = Z.max 1 ((len + n - 1) / n)).
  { subst pages. rewrite Qceiling_div by exact Hn. reflexivity. }
  split; [|split; [exact Hpages|]].
  - unfold totalPages. rewrite Hsize. unfold Num.of_nat.
    rewrite div_of_Z by exact Hn. unfold Num.ceil, Num.one.
    rewrite max_of_Z. reflexivity.
  - rewrite (map_ext_in _ (fun p => firstn (Z.to_nat n)
               (skipn ((p - 1) * Z.to_nat n) rows))).
    + rewrite <- flat_map_concat_map, chunks_concat. apply firstn_all2.
      assert (Hc : len <= pages * n).
      { rewrite Hpages.
        pose proof (Z.div_mod (len + n - 1) n ltac:(lia)) as H1.
        pose proof (Z.mod_pos_bound (len + n - 1) n Hn) as H2.
        nia. }
      subst len. nia.
    + intros p Hp. apply in_seq in Hp.
      apply paged_chunk; [exact Hn | lia | exact Hsize].
Qed.


End Pagination.

Lemma pagination_covers_witness :
  (0 < 1)%Z /\
  pageSize Sample.one_per_page = Num.of_Z 1 /\
  totalPages Sample.no_dates Sample.one_per_page = Num.of_Z 2 /\
  (pagedSortedVisibleItems Sample.no_dates
     (with_page (Num.of_Z 1) Sample.one_per_page)
   ++ pagedSortedVisibleItems Sample.no_dates
        (with_page (Num.of_Z 2) Sample.one_per_page))%list
  = sortedVisibleItems Sample.no_dates Sample.one_per_page.
Proof.
  pose proof (pagination_covers Sample.no_dates Sample.one_per_page 1
                eq_refl eq_refl) as H.
  cbv zeta in H. destruct H as (Htotal & _ & Hcat).
  split; [reflexivity|]. split; [reflexivity|]. split; [exact Htotal|].
  etransitivity; [|exact Hcat]. vm_compute. reflexivity.
Defined.

(** Scenario B: one row per page, sorted by total, highest first. *)
Example paging_by_total :
  let w := setSort TOTAL (setPageSize (Num.of_Z 1) Sample.loaded) in
  pagedSortedVisibleItems Sample.no_dates (state w) = [Sample.b2] /\
  pageRange Sample.no_dates (state w)
    = mkPageRange (Num.of_Z 1) (Num.of_Z 1) (Num.of_Z 2) /\
  pagedSortedVisibleItems Sample.no_dates
    (state (nextPage Sample.no_dates w)) = [Sample.b1].
Proof. vm_compute. repeat split. Qed.

(* ------------------------------------------------------------------ *)
(** ** The search *)
(* ------------------------------------------------------------------ *)

Lemma startsWith_spec : forall s needle,
  startsWith s needle = true <-> exists post, s = needle ++ post.
Proof.
  intros s needle. revert s.
  induction needle as [|a needle IH]; intros s; simpl.
  - split; [intros _; exists s; reflexivity | reflexivity].
  - destruct s as [|b s]; simpl.
    + split; [discriminate | intros [post H]; discriminate H].
    + rewrite andb_true_iff, Ascii.eqb_eq, IH. split.
      * intros [-> [post ->]]. exists post. reflexivity.
      * intros [post H]. injection H as -> ->.
        split; [reflexivity | exists post; reflexivity].
Qed.

Lemma includes_spec : forall h needle,
  includes h needle = true <-> substring_of needle h.
Proof.
  unfold substring_of. induction h as [|c h IH]; intros needle.
  - cbn [includes]. rewrite orb_false_r, startsWith_spec. split.
    + intros [post H]. exists "", post. exact H.
    + intros [pre [post H]]. destruct pre; [exists post; exact H|].
      discriminate H.
  - cbn [includes]. rewrite orb_true_iff, startsWith_spec, IH. split.
    + intros [[post H]|[pre [post H]]].
      * exists "", post. exact H.
      * exists (String c pre), post. simpl. rewrite H. reflexivity.
    + intros [pre [post H]]. destruct pre as [|c' pre]; simpl in H.
      * left. exists post. exact H.
      * right. injection H as _ H. exists pre, post. exact H.
Qed.

Lemma includes_empty : forall h, includes h "" = true.
Proof. intros [|c h]; reflexivity. Qed.

Lemma is_empty_true : forall s, is_empty s = true -> s = "".
Proof. intros [|c s]; [reflexivity | discriminate]. Qed.

Lemma all_space_trim : forall q, all_space q = true -> trim q = "".
Proof.
  intros q H. unfold trim.
  assert (Hs : trimStart q = "").
  { induction q as [|c q IH]; [reflexivity|]. simpl in *.
    apply andb_true_iff in H. destruct H as [Hc Hq].
    rewrite Hc. apply IH. exact Hq. }
  rewrite Hs. reflexivity.
Qed.

Lemma filter_all : forall (A : Type) (p : A -> bool) (l : list A),
  (forall x, p x = true) -> List.filter p l = l.
Proof.
  intros A p l H. induction l as [|x l IH]; simpl; [reflexivity|].
  rewrite H, IH. reflexivity.
Qed.

Lemma visibleItems_filters : forall s,
  visibleItems s
  = List.filter (matches_query (query s))
                (List.filter (passes_filter (filter s)) (items s)).
Proof.
  intros s. unfold visibleItems, items.
  assert (Hf : match filter s with
               | ALL => (localItems s ++ serverItems s)%list
               | _ => List.filter (status_is (filter s))
                                  (localItems s ++ serverItems s)
               end
               = List.filter (passes_filter (filter s))
                             (localItems s ++ serverItems s)).
  { destruct (filter s); simpl; try reflexivity.
    symmetry. apply filter_all. reflexivity. }
  rewrite Hf.
  destruct (is_empty (toLowerCase (trim (query s)))) eqn:E.
  - symmetry. apply filter_all. intros b. unfold matches_query.
    rewrite (is_empty_true _ E). apply includes_empty.
  - reflexivity.
Qed.

Lemma visibleItems_In : forall s b,
  In b (visibleItems s)
  <-> In b (items s) /\ shown (filter s) (query s) b = true.
Proof.
  intros s b. rewrite visibleItems_filters, !filter_In. unfold shown.
  rewrite andb_true_iff. tauto.
Qed.

Lemma lower_char_idem : forall c, lower_char (lower_char c) = lower_char c.
Proof.
  intros [b0 b1 b2 b3 b4 b5 b6 b7].
  destruct b0, b1, b2, b3, b4, b5, b6, b7; reflexivity.
Qed.

Lemma is_space_lower : forall c, is_space (lower_char c) = is_space c.
Proof.
  intros [b0 b1 b2 b3 b4 b5 b6 b7].
  destruct b0, b1, b2, b3, b4, b5, b6, b7; reflexivity.
Qed.

Lemma toLowerCase_idem : forall s, toLowerCase (toLowerCase s) = toLowerCase s.
Proof.
  induction s as [|c s IH]; simpl; [reflexivity|].
  rewrite lower_char_idem, IH. reflexivity.
Qed.

Lemma trimStart_lower : forall s,
  trimStart (toLowerCase s) = toLowerCase (trimStart s).
Proof.
  induction s as [|c s IH]; simpl; [reflexivity|].
  rewrite is_space_lower. destruct (is_space c); [exact IH | reflexivity].
Qed.

Lemma trimEnd_lower : forall s,
  trimEnd (toLowerCase s) = toLowerCase (trimEnd s).
Proof.
  induction s as [|c s IH]; simpl; [reflexivity|].
  rewrite IH, is_space_lower.
  destruct (trimEnd s); simpl; [destruct (is_space c)|]; reflexivity.
Qed.

Lemma trim_lower : forall s, trim (toLowerCase s) = toLowerCase (trim s).
Proof.
  intros s. unfold trim. rewrite trimStart_lower, trimEnd_lower.
  reflexivity.
Qed.

(** C7 (amended): [visibleItems] is [items] filtered by the status filter
    (every booking passes under [ALL]), then by the query.  A booking
    matches when the query, trimmed and lower-cased, occurs in the
    lower-cased text made of [customerName], one space, and [address]; the
    separating space is part of the text that is searched.  A query of
    white space only matches every booking, and the letter case of the
    query is irrelevant. *)
Theorem visibleItems_search : forall s : BookingsState,
  visibleItems s
    = List.filter (matches_query (query s))
                  (List.filter (passes_filter (filter s)) (items s)) /\
  (filter s = ALL ->
   List.filter (passes_filter (filter s)) (items s) = items s) /\
  (forall b,
     matches_query (query s) b = true
     <-> substring_of (toLowerCase (trim (query s)))
                      (toLowerCase (customerName b ++ " " ++ address b))) /\
  (all_space (query s) = true ->
   visibleItems s = List.filter (passes_filter (filter s)) (items s)) /\
  (forall q,
     visibleItems (with_query (toLowerCase q) s)
     = visibleItems (with_query q s)).
Proof.
  intros s. split; [apply visibleItems_filters|].
  split.
  { intros ->. apply filter_all. reflexivity. }
  split.
  { intros b. unfold matches_query, hay. apply includes_spec. }
  split.
  { intros H. rewrite visibleItems_filters. apply filter_all.
    intros b. unfold matches_query. rewrite (all_space_trim _ H).
    apply includes_empty. }
  intros q. rewrite !visibleItems_filters. simpl.
  apply filter_ext. intros b. unfold matches_query.
  rewrite trim_lower, toLowerCase_idem. reflexivity.
Qed.

Lemma visibleItems_search_witness :
  filter (with_query "  " (state Sample.loaded)) = ALL /\
  all_space (query (with_query "  " (state Sample.loaded))) = true /\
  visibleItems (with_query "  " (state Sample.loaded))
    = [Sample.b1; Sample.b2].
Proof.
  split; [reflexivity|]. split; [reflexivity|].
  destruct (visibleItems_search (with_query "  " (state Sample.loaded)))
    as (_ & Hall & _ & Hspace & _).
  rewrite (Hspace eq_refl). rewrite (Hall eq_refl). reflexivity.
Defined.

(** Scenario D: the query differs from the stored address in letter case
    only; the booking without the text is excluded. *)
Example search_main_st :
  visibleItems (with_query "main st" (state Sample.loaded)) = [Sample.b1]
  /\ visibleItems (with_query "MAIN ST " (state Sample.loaded))
     = [Sample.b1].
Proof. split; vm_compute; reflexivity. Qed.

(** Scenario A: the status filter narrows [visibleItems], not [counts]. *)
Example counts_scenario :
  visibleItems (state (setFilter FilterNEW Sample.loaded)) = [Sample.b1] /\
  counts (state (setFilter FilterNEW Sample.loaded)) = mkCounts 2 1 1.
Proof. split; vm_compute; reflexivity. Qed.

(** C7 (as stated) fails on the concatenation: with name [Al] and address
    [ice St] the concatenation of the two fields contains [alice], the text
    the store searches ([al ice st]) does not, and the store shows nothing
    where the stated search shows the booking. *)
Lemma search_counterexample :
  items Sample.alice = [Sample.b3] /\
  query Sample.alice = "alice" /\
  spec_visibleItems Sample.alice = [Sample.b3] /\
  visibleItems Sample.alice = [].
Proof. repeat split; vm_compute; reflexivity. Qed.

(* ------------------------------------------------------------------ *)
(** ** delete and undoDelete *)
(* ------------------------------------------------------------------ *)

Lemma find_existsb : forall (A : Type) (p : A -> bool) (l : list A),
  existsb p l = true -> exists a, List.find p l = Some a.
Proof.
  intros A p l. induction l as [|x l IH]; simpl; [discriminate|].
  destruct (p x); [intros _; now exists x | exact IH].
Qed.

Lemma filter_not_id : forall bid l,
  ~ In bid (ids (List.filter (fun b => negb (has_id bid b)) l)).
Proof.
  intros bid l H. apply mem_id_In in H. unfold mem_id in H.
  apply existsb_exists in H. destruct H as [b [Hb Hid]].
  apply filter_In in Hb. destruct Hb as [_ Hb]. rewrite Hid in Hb.
  discriminate.
Qed.

Lemma delete_found : forall bid b w,
  first_with_id bid (items (state w)) = Some b ->
  delete bid w
  = if mem_id bid (serverItems (state w))
    then subscribe (ReqDelete bid (nextTimerId w) (state w)) (deleted bid b w)
    else deleted bid b w.
Proof.
  intros bid b w H. unfold first_with_id, items in H.
  unfold delete. rewrite H. unfold mem_id, deleted. cbn.
  destruct (pendingDelete (state w)); reflexivity.
Qed.

Lemma delete_absent : forall bid w,
  first_with_id bid (items (state w)) = None -> delete bid w = w.
Proof.
  intros bid w H. unfold first_with_id, items in H.
  unfold delete. rewrite H. reflexivity.
Qed.




Lemma first_with_id_In : forall bid l b,
  first_with_id bid l = Some b -> In b l /\ id b = bid.
Proof.
  intros bid l b H. apply find_some in H. destruct H as [H1 H2].
  split; [exact H1|]. apply String.eqb_eq. exact H2.
Qed.

(** With pairwise distinct ids, every booking is the first with its id. *)
Lemma first_with_id_unique : forall l b,
  NoDup (ids l) -> In b l -> first_with_id (id b) l = Some b.
Proof.
  induction l as [|x l IH]; intros b Hnd Hin; [contradiction|].
  simpl in Hnd. inversion Hnd as [|? ? Hx Hnd']; subst.
  unfold first_with_id. simpl. unfold has_id at 1.
  destruct Hin as [->|Hin].
  - rewrite String.eqb_refl. reflexivity.
  - destruct (String.eqb (id x) (id b)) eqn:E.
    + apply String.eqb_eq in E. exfalso. apply Hx. rewrite E.
      apply in_map. exact Hin.
    + apply IH; assumption.
Qed.


(** C4 (amended): for the booking [b] that is the first with its id in
    [localItems ++ serverItems] -- any booking of [items] when ids are
    pairwise distinct -- [delete (id b)] followed at once by [undoDelete]
    gives a state in which [b] itself, unchanged, is the head of
    [localItems], whichever collection held it; every booking with that id
    is gone from the rest of both collections; [b] is in [items], and in
    [visibleItems] if it was before; [pendingDelete] is empty, [page] is 1
    and the expiry timer of the delete is not running. *)
Theorem undo_restores_first_with_id : forall (w : Store) (b : Booking),
  first_with_id (id b) (items (state w)) = Some b ->
  let s := state w in
  let w' := undoDelete (delete (id b) w) in
  let s' := state w' in
  localItems s'
    = b :: List.filter (fun x => negb (has_id (id b) x)) (localItems s) /\
  serverItems s'
    = List.filter (fun x => negb (has_id (id b) x)) (serverItems s) /\
  In b (items s') /\
  (In b (visibleItems s) -> In b (visibleItems s')) /\
  pendingDelete s' = None /\
  page s' = Num.of_Z 1 /\
  ~ In (nextTimerId w) (timers w').
Proof.
  intros w b Hb s w' s'.
  assert (Hloc : localItems s'
            = b :: List.filter (fun x => negb (has_id (id b) x))
                               (localItems s)).
  { subst s' w'. rewrite (delete_found _ _ w Hb).
    destruct (mem_id (id b) (serverItems (state w))); reflexivity. }
  assert (Hsrv : serverItems s'
            = List.filter (fun x => negb (has_id (id b) x))
                          (serverItems s)).
  { subst s' w'. rewrite (delete_found _ _ w Hb).
    destruct (mem_id (id b) (serverItems (state w))); reflexivity. }
  assert (Hf : filter s' = filter s /\ query s' = query s).
  { subst s' w'. rewrite (delete_found _ _ w Hb).
    destruct (mem_id (id b) (serverItems (state w))); split; reflexivity. }
  assert (Hitems : In b (items s')).
  { unfold items. rewrite Hloc. left. reflexivity. }
  split; [exact Hloc|]. split; [exact Hsrv|]. split; [exact Hitems|].
  split.
  { intros Hv. apply visibleItems_In in Hv. apply visibleItems_In.
    destruct Hf as [-> ->]. tauto. }
  split.
  { subst s' w'. rewrite (delete_found _ _ w Hb).
    destruct (mem_id (id b) (serverItems (state w))); reflexivity. }
  split.
  { subst s' w'. rewrite (delete_found _ _ w Hb).
    destruct (mem_id (id b) (serverItems (state w))); reflexivity. }
  subst w'. rewrite (delete_found _ _ w Hb).
  destruct (mem_id (id b) (serverItems (state w))); cbn;
    rewrite Nat.eqb_refl; cbn; intros H; apply filter_In in H;
    destruct H as [_ H]; rewrite Nat.eqb_refl in H; discriminate.
Qed.

Lemma undo_restores_first_with_id_witness :
  first_with_id (id Sample.b2) (items (state Sample.loaded))
    = Some Sample.b2 /\
  localItems (state (undoDelete (delete "2" Sample.loaded))) = [Sample.b2] /\
  serverItems (state (undoDelete (delete "2" Sample.loaded))) = [Sample.b1].
Proof.
  split; [reflexivity|].
  destruct (undo_restores_first_with_id Sample.loaded Sample.b2 eq_refl)
    as (Hl & Hs & _).
  split; [exact Hl | exact Hs].
Defined.

(** C4 (as stated) fails where two bookings share an id: after the events of
    [Sample.race] the local copy of booking 2 shadows the server's record
    [Sample.b2'], [delete] removes both and [undoDelete] brings back the
    local copy only. *)
Lemma undo_round_trip_counterexample :
  construct NoItem = Normal Sample.fresh /\
  exists w,
    run Sample.no_dates Sample.fresh Sample.race = Some w /\
    In Sample.b2' (serverItems (state w)) /\
    ~ In Sample.b2'
         (items (state (undoDelete (delete (id Sample.b2') w)))).
Proof.
  split; [reflexivity|].
  eexists. split; [vm_compute; reflexivity|]. split.
  - right; left; reflexivity.
  - vm_compute. intros [H|[H|[]]];
      apply (f_equal status) in H; discriminate H.
Qed.

(* ------------------------------------------------------------------ *)
(** ** The partition of ids between the two collections *)
(* ------------------------------------------------------------------ *)

Section Partition.

Variable Date_parse : string -> number.

Lemma run_reachable : forall evs w w',
  reachable Date_parse w -> run Date_parse w evs = Some w' ->
  reachable Date_parse w'.
Proof.
  induction evs as [|ev evs IH]; intros w w' Hw Hrun; simpl in Hrun.
  - injection Hrun as <-. exact Hw.
  - destruct (step Date_parse w ev) as [w1|] eqn:E; [|discriminate].
    apply (IH w1); [|exact Hrun].
    apply (reachable_step Date_parse w ev); assumption.
Qed.

Lemma ids_filter_incl : forall (p : Booking -> bool) l i,
  In i (ids (List.filter p l)) -> In i (ids l).
Proof.
  intros p l i H. unfold ids in *. apply in_map_iff in H.
  destruct H as [b [Hb Hin]]. apply filter_In in Hin.
  apply in_map_iff. exists b. tauto.
Qed.

Lemma ids_map_confirm_one : forall bid l,
  ids (List.map (confirm_one bid) l) = ids l.
Proof.
  intros bid l. unfold ids. rewrite map_map. apply map_ext.
  intros b. apply confirm_one_status.
Qed.

Lemma ids_replace : forall bid updated l i,
  In i (ids (List.map (fun b => if has_id bid b then updated else b) l)) ->
  In i (ids l) \/ (i = id updated /\ mem_id bid l = true).
Proof.
  intros bid updated l i H. unfold ids in H. rewrite map_map in H.
  apply in_map_iff in H. destruct H as [b [Hb Hin]].
  destruct (has_id bid b) eqn:E.
  - right. split; [symmetry; exact Hb|].
    unfold mem_id. apply existsb_exists. exists b. tauto.
  - left. unfold ids. apply in_map_iff. exists b. tauto.
Qed.

Lemma In_remove_nth : forall (A : Type) k (l : list A) x,
  In x (remove_nth k l) -> In x l.
Proof.
  intros A k l. revert k. induction l as [|y l IH]; intros k x H.
  - destruct k; exact H.
  - destruct k as [|k]; simpl in H.
    + right. exact H.
    + destruct H as [H|H]; [left; exact H | right; apply (IH k); exact H].
Qed.

Lemma mem_id_false : forall i l, mem_id i l = false -> ~ In i (ids l).
Proof.
  intros i l H Hin. apply mem_id_In in Hin. congruence.
Qed.

Lemma loadUiState_items : forall stored s s',
  loadUiState stored s = Normal s' ->
  localItems s' = localItems s /\ serverItems s' = serverItems s /\
  pendingDelete s' = pendingDelete s /\ loading s' = loading s /\
  error s' = error s.
Proof.
  intros stored s s' H.
  destruct stored as [| | |j]; simpl in H;
    try (injection H as <-; repeat split; reflexivity).
  destruct j; simpl in H; injection H as <-; repeat split; reflexivity.
Qed.

Lemma construct_partition_kept : forall stored w,
  construct stored = Normal w -> partition_kept w.
Proof.
  intros stored w H. unfold construct in H.
  destruct (loadUiState stored initialState) as [s|e] eqn:E;
    simpl in H; [|discriminate].
  injection H as <-. apply loadUiState_items in E.
  destruct E as (Hl & Hs & _). split.
  - unfold partitioned. simpl. rewrite Hl. simpl. intros i [].
  - simpl. intros bid tid s0 [].
Qed.

Lemma delete_partition_kept : forall bid w,
  partition_kept w -> partition_kept (delete bid w).
Proof.
  intros bid w [Hp Hs].
  destruct (first_with_id bid (items (state w))) as [b|] eqn:E.
  - rewrite (delete_found bid b w E).
    assert (Hd : partitioned (state (deleted bid b w))).
    { unfold partitioned. cbn. intros i H1 H2.
      apply (Hp i); eapply ids_filter_incl; eassumption. }
    destruct (mem_id bid (serverItems (state w))).
    + split; [exact Hd|]. cbn. intros bid' tid s0 H.
      apply in_app_or in H. destruct H as [H|[H|[]]].
      * apply (Hs bid' tid s0 H).
      * injection H as _ _ <-. exact Hp.
    + split; [exact Hd|]. exact Hs.
  - rewrite (delete_absent bid w E). split; assumption.
Qed.

Lemma complete_partition_kept : forall k resp w w',
  partition_kept w ->
  admissible w (EvComplete k resp) = true ->
  complete k resp w = Some w' ->
  partition_kept w'.
Proof.
  intros k resp w w' [Hp Hs] Hadm Hc.
  unfold admissible in Hadm. unfold complete in Hc.
  destruct (nth_error (subscriptions w) k) as [r|] eqn:E; [|discriminate].
  assert (Hs' : forall bid tid s0,
             In (ReqDelete bid tid s0) (remove_nth k (subscriptions w)) ->
             partitioned s0).
  { intros bid tid s0 H. apply (Hs bid tid s0).
    apply (In_remove_nth _ k). exact H. }
  destruct r as [|req|bid|bid tid s0]; destruct resp as [l|b| |err];
    simpl in Hc; try discriminate; injection Hc as <-;
    (split; [|exact Hs']); unfold partitioned; cbn.
  - (* list delivered *)
    intros i H1 H2. unfold ids in H2. apply in_map_iff in H2.
    destruct H2 as [b [Hb Hin]].
    rewrite forallb_forall in Hadm. specialize (Hadm b Hin).
    apply negb_true_iff in Hadm. apply mem_id_false in Hadm.
    rewrite Hb in Hadm. contradiction.
  - exact Hp.
  - (* booking created *)
    intros i H1 [H2|H2].
    + apply negb_true_iff in Hadm. apply mem_id_false in Hadm.
      rewrite H2 in Hadm. contradiction.
    + apply (Hp i H1 H2).
  - exact Hp.
  - (* booking confirmed *)
    intros i H1 H2. apply ids_replace in H2.
    destruct H2 as [H2|[H2 Hmem]]; [apply (Hp i H1 H2)|].
    apply orb_true_iff in Hadm. destruct Hadm as [Hadm|Hadm].
    + unfold has_id in Hadm. apply String.eqb_eq in Hadm.
      apply (Hp i H1). apply mem_id_In. congruence.
    + apply negb_true_iff in Hadm. apply mem_id_false in Hadm.
      rewrite <- H2 in Hadm. contradiction.
  - exact Hp.
  - exact Hp.
  - (* delete rolled back *)
    apply (Hs bid tid s0). apply (nth_error_In _ k). exact E.
Qed.

Lemma step_partition_kept : forall w ev w',
  partition_kept w ->
  admissible w ev = true ->
  step Date_parse w ev = Some w' ->
  partition_kept w'.
Proof.
  intros w ev w' Hk Hadm Hstep.
  destruct ev; simpl in Hstep;
    try (injection Hstep as <-).
  - (* load *)
    destruct Hk as [Hp Hs]. split; [exact Hp|]. cbn. intros bid tid s0 H.
    apply in_app_or in H. destruct H as [H|[H|[]]];
      [apply (Hs _ _ _ H) | discriminate H].
  - (* create *)
    destruct Hk as [Hp Hs]. split; [exact Hp|]. cbn. intros bid tid s0 H.
    apply in_app_or in H. destruct H as [H|[H|[]]];
      [apply (Hs _ _ _ H) | discriminate H].
  - (* confirm *)
    destruct Hk as [Hp Hs].
    assert (Hp' : forall i,
      In i (ids (List.map (confirm_one bid) (localItems (state w)))) ->
      In i (ids (List.map (confirm_one bid) (serverItems (state w)))) ->
      False).
    { intros i. rewrite !ids_map_confirm_one. apply Hp. }
    unfold confirm. cbn.
    destruct (existsb (has_id bid)
                (List.map (confirm_one bid) (serverItems (state w)))).
    + split; [exact Hp'|]. cbn. intros bid' tid s0 H.
      apply in_app_or in H. destruct H as [H|[H|[]]];
        [apply (Hs _ _ _ H) | discriminate H].
    + split; [exact Hp' | exact Hs].
  - (* delete *)
    apply delete_partition_kept. exact Hk.
  - (* undoDelete *)
    destruct Hk as [Hp Hs]. unfold undoDelete. unfold admissible in Hadm.
    destruct (pendingDelete (state w)) as [pd|]; [|split; assumption].
    split; [|exact Hs]. unfold partitioned. cbn. intros i [H1|H1] H2.
    + apply negb_true_iff in Hadm. apply mem_id_false in Hadm.
      rewrite H1 in Hadm. contradiction.
    + apply (Hp i H1 H2).
  - (* add *)
    destruct Hk as [Hp Hs]. split; [|exact Hs].
    unfold partitioned. cbn. intros i [H1|H1] H2.
    + simpl in Hadm. apply negb_true_iff in Hadm.
      apply mem_id_false in Hadm. rewrite H1 in Hadm. contradiction.
    + apply (Hp i H1 H2).
  - exact Hk.
  - exact Hk.
  - exact Hk.
  - exact Hk.
  - exact Hk.
  - exact Hk.
  - exact Hk.
  - apply (complete_partition_kept k resp w); assumption.
  - unfold expire in Hstep.
    destruct (existsb (Nat.eqb t) (timers w)); [|discriminate].
    injection Hstep as <-. exact Hk.
Qed.

End Partition.

Lemma guarded_run_partition_kept : forall Date_parse evs w w',
  partition_kept w -> guarded_run Date_parse w evs = Some w' ->
  partition_kept w'.
Proof.
  intros dp. induction evs as [|ev evs IH]; intros w w' Hk Hrun;
    simpl in Hrun.
  - injection Hrun as <-. exact Hk.
  - destruct (admissible w ev) eqn:Ha; [|discriminate].
    destruct (step dp w ev) as [w1|] eqn:E; [|discriminate].
    apply (IH w1); [|exact Hrun].
    apply (step_partition_kept dp w ev); assumption.
Qed.

(** Every guarded run is a run. *)
Lemma guarded_run_run : forall Date_parse evs w w',
  guarded_run Date_parse w evs = Some w' -> run Date_parse w evs = Some w'.
Proof.
  intros dp. induction evs as [|ev evs IH]; intros w w' H; simpl in *.
  - exact H.
  - destruct (admissible w ev); [|discriminate].
    destruct (step dp w ev) as [w1|]; [|discriminate].
    apply IH. exact H.
Qed.

(** C1 (amended): the store compares no ids, so the partition is kept only
    as far as its inputs keep it.  In every store reached from the
    constructor through events that are all admissible -- the booking given
    to [add], the booking [undoDelete] re-inserts, the list delivered to
    [load] and the booking delivered to [create] bring no id that the other
    collection holds, and the booking delivered to [confirm] carries the
    confirmed id or an id foreign to [localItems] -- the ids of
    [localItems] and the ids of [serverItems] are disjoint.  All other
    events (failures, [confirm], [delete] and its rollback, the setters,
    page navigation, the timer) are admissible without condition. *)
Theorem partition_kept_by_admissible_events :
  forall (Date_parse : string -> number) (stored : Stored) (w0 : Store)
         (evs : list Event) (w : Store),
  construct stored = Normal w0 ->
  guarded_run Date_parse w0 evs = Some w ->
  reachable Date_parse w /\ partitioned (state w).
Proof.
  intros dp stored w0 evs w Hc Hrun. split.
  - apply (run_reachable dp evs w0).
    + apply (reachable_construct dp stored). exact Hc.
    + apply guarded_run_run. exact Hrun.
  - apply (guarded_run_partition_kept dp evs w0 w).
    + apply (construct_partition_kept stored). exact Hc.
    + exact Hrun.
Qed.

Lemma partition_kept_by_admissible_events_witness :
  construct NoItem = Normal Sample.fresh /\
  exists w,
    guarded_run Sample.no_dates Sample.fresh Sample.calm = Some w /\
    ids (localItems (state w)) = ["3"; "2"] /\
    ids (serverItems (state w)) = ["1"] /\
    partitioned (state w).
Proof.
  split; [reflexivity|].
  eexists. split; [vm_compute; reflexivity|].
  split; [reflexivity|]. split; [reflexivity|].
  apply (partition_kept_by_admissible_events
           Sample.no_dates NoItem Sample.fresh Sample.calm);
    [reflexivity | vm_compute; reflexivity].
Defined.

(** C1 (as stated) fails: the events of [Sample.race] -- a refresh that
    overtakes a delete in flight, then the undo -- lead from the constructor
    to a store in which id 2 is in both collections. *)
Lemma partition_counterexample :
  construct NoItem = Normal Sample.fresh /\
  exists w,
    run Sample.no_dates Sample.fresh Sample.race = Some w /\
    reachable Sample.no_dates w /\
    In "2" (ids (localItems (state w))) /\
    In "2" (ids (serverItems (state w))) /\
    ~ partitioned (state w).
Proof.
  split; [reflexivity|].
  assert (Hrun : exists w,
            run Sample.no_dates Sample.fresh Sample.race = Some w /\
            In "2" (ids (localItems (state w))) /\
            In "2" (ids (serverItems (state w)))).
  { eexists. split; [vm_compute; reflexivity|].
    split; [left; reflexivity | right; left; reflexivity]. }
  destruct Hrun as (w & Hrun & Hl & Hs).
  exists w. split; [exact Hrun|]. split.
  - apply (run_reachable Sample.no_dates Sample.race Sample.fresh);
      [|exact Hrun].
    apply (reachable_construct Sample.no_dates NoItem). reflexivity.
  - split; [exact Hl|]. split; [exact Hs|].
    intros H. apply (H "2" Hl Hs).
Qed.

(** The same through [add] alone, once a booking has been loaded. *)
Example partition_broken_by_add :
  run Sample.no_dates Sample.fresh
      [EvLoad; EvComplete 0 (ListOk [Sample.b1]); EvAdd Sample.b1]
  = Some (mkStore
            (with_localItems [Sample.b1]
               (with_serverItems [Sample.b1] initialState))
            [] 1 [] NoItem).
Proof. vm_compute. reflexivity. Qed.

(* ------------------------------------------------------------------ *)
(** ** Restoring the persisted preferences *)
(* ------------------------------------------------------------------ *)

Lemma valid_filter_spec : forall v f,
  valid_filter v = Some f <-> v = Some (JString (filter_name f)).
Proof.
  intros v f. split.
  - destruct v as [[| | |str| |]|]; simpl; try discriminate.
    destruct (String.eqb str "NEW") eqn:E1;
      [apply String.eqb_eq in E1; intros [= <-]; now subst|].
    destruct (String.eqb str "CONFIRMED") eqn:E2;
      [apply String.eqb_eq in E2; intros [= <-]; now subst|].
    destruct (String.eqb str "ALL") eqn:E3;
      [apply String.eqb_eq in E3; intros [= <-]; now subst|].
    discriminate.
  - intros ->. destruct f; reflexivity.
Qed.

Lemma valid_sortKey_spec : forall v k,
  valid_sortKey v = Some k <-> v = Some (JString (sortKey_name k)).
Proof.
  intros v k. split.
  - destruct v as [[| | |str| |]|]; simpl; try discriminate.
    destruct (String.eqb str "TOTAL") eqn:E1;
      [apply String.eqb_eq in E1; intros [= <-]; now subst|].
    destruct (String.eqb str "SCHEDULED_AT") eqn:E2;
      [apply String.eqb_eq in E2; intros [= <-]; now subst|].
    discriminate.
  - intros ->. destruct k; reflexivity.
Qed.

Lemma valid_sortDir_spec : forall v d,
  valid_sortDir v = Some d <-> v = Some (JString (sortDir_name d)).
Proof.
  intros v d. split.
  - destruct v as [[| | |str| |]|]; simpl; try discriminate.
    destruct (String.eqb str "ASC") eqn:E1;
      [apply String.eqb_eq in E1; intros [= <-]; now subst|].
    destruct (String.eqb str "DESC") eqn:E2;
      [apply String.eqb_eq in E2; intros [= <-]; now subst|].
    discriminate.
  - intros ->. destruct d; reflexivity.
Qed.

Lemma valid_pageSize_spec : forall v n,
  valid_pageSize v = Some n
  <-> v = Some (JNumber n) /\ Num.gtb n Num.zero = true.
Proof.
  intros v n. split.
  - destruct v as [[| |m| | |]|]; simpl; try discriminate.
    destruct (Num.gtb m Num.zero) eqn:E; [|discriminate].
    intros [= <-]. split; [reflexivity | exact E].
  - intros [-> H]. simpl. rewrite H. reflexivity.
Qed.

Lemma valid_query_spec : forall v q,
  valid_query v = Some q <-> v = Some (JString q).
Proof.
  intros v q. split.
  - destruct v as [[| | |str| |]|]; simpl; try discriminate.
    intros [= <-]. reflexivity.
  - intros ->. reflexivity.
Qed.

Lemma loadUiState_fields : forall stored s,
  exists s',
    loadUiState stored s = Normal s' /\
    filter s' = or_default (valid_filter (stored_field stored "filter"))
                           (filter s) /\
    sortKey s' = or_default (valid_sortKey (stored_field stored "sortKey"))
                            (sortKey s) /\
    sortDir s' = or_default (valid_sortDir (stored_field stored "sortDir"))
                            (sortDir s) /\
    pageSize s' = or_default (valid_pageSize (stored_field stored "pageSize"))
                             (pageSize s) /\
    query s' = or_default (valid_query (stored_field stored "query"))
                          (query s).
Proof.
  intros stored s.
  destruct stored as [| | |j]; simpl;
    try (eexists; split; [reflexivity | repeat split]).
  destruct j; simpl; eexists; (split; [reflexivity | repeat split]).
Qed.

Lemma or_default_pageSize_positive : forall v d,
  Num.gtb d Num.zero = true ->
  Num.gtb (or_default (valid_pageSize v) d) Num.zero = true.
Proof.
  intros v d Hd. destruct (valid_pageSize v) as [n|] eqn:E; simpl.
  - apply valid_pageSize_spec in E. tauto.
  - exact Hd.
Qed.

(** What [saveUiState] wrote is read back field by field; a page size that
    is not finite is written as [null] and so falls back. *)
Lemma saved_prefs_restore : forall (w : Store) (s0 : BookingsState),
  exists s',
    loadUiState (localStorage (saveUiState w)) s0 = Normal s' /\
    filter s' = filter (state w) /\
    sortKey s' = sortKey (state w) /\
    sortDir s' = sortDir (state w) /\
    query s' = query (state w) /\
    pageSize s'
      = or_default
          (valid_pageSize (Some (json_of_number (pageSize (state w)))))
          (pageSize s0) /\
    page s' = Num.of_Z 1.
Proof.
  intros w s0. eexists. split; [reflexivity|].
  cbn. repeat split.
  - destruct (filter (state w)); reflexivity.
  - destruct (sortKey (state w)); reflexivity.
  - destruct (sortDir (state w)); reflexivity.
Qed.

(** C8 (amended): whatever localStorage holds -- nothing, the empty string,
    a string that is not JSON, or any JSON value -- the constructor returns
    normally.  Each of [filter], [sortKey], [sortDir], [pageSize] and
    [query] is taken from the stored object when it passes its own test and
    is the default of [initialState] otherwise, independently of the other
    fields.  The tests accept exactly the names of the enumerations, any
    number greater than 0 for [pageSize], and any string for [query]; so
    after the restore [filter], [sortKey] and [sortDir] are members of their
    enumerations and [pageSize] is a number greater than 0, which need not
    be an integer. *)
Theorem restore_never_throws : forall stored : Stored,
  exists w : Store,
    construct stored = Normal w /\
    filter (state w)
      = or_default (valid_filter (stored_field stored "filter")) ALL /\
    sortKey (state w)
      = or_default (valid_sortKey (stored_field stored "sortKey"))
                   SCHEDULED_AT /\
    sortDir (state w)
      = or_default (valid_sortDir (stored_field stored "sortDir")) DESC /\
    pageSize (state w)
      = or_default (valid_pageSize (stored_field stored "pageSize"))
                   (Num.of_Z 10) /\
    query (state w)
      = or_default (valid_query (stored_field stored "query")) "" /\
    Num.gtb (pageSize (state w)) Num.zero = true /\
    In (filter_name (filter (state w))) ["ALL"; "NEW"; "CONFIRMED"] /\
    In (sortKey_name (sortKey (state w))) ["SCHEDULED_AT"; "TOTAL"] /\
    In (sortDir_name (sortDir (state w))) ["ASC"; "DESC"] /\
    (forall v f, valid_filter v = Some f
                 <-> v = Some (JString (filter_name f))) /\
    (forall v k, valid_sortKey v = Some k
                 <-> v = Some (JString (sortKey_name k))) /\
    (forall v d, valid_sortDir v = Some d
                 <-> v = Some (JString (sortDir_name d))) /\
    (forall v n, valid_pageSize v = Some n
                 <-> v = Some (JNumber n) /\ Num.gtb n Num.zero = true) /\
    (forall v q, valid_query v = Some q <-> v = Some (JString q)).
Proof.
  intros stored.
  destruct (loadUiState_fields stored initialState)
    as (s' & Hl & Hf & Hk & Hd & Hn & Hq).
  exists (mkStore s' [] 1 [] stored).
  split; [unfold construct; rewrite Hl; reflexivity|].
  simpl.
  split; [exact Hf|]. split; [exact Hk|]. split; [exact Hd|].
  split; [exact Hn|]. split; [exact Hq|].
  split; [rewrite Hn; apply or_default_pageSize_positive; reflexivity|].
  split; [destruct (filter s'); simpl; tauto|].
  split; [destruct (sortKey s'); simpl; tauto|].
  split; [destruct (sortDir s'); simpl; tauto|].
  split; [exact valid_filter_spec|].
  split; [exact valid_sortKey_spec|].
  split; [exact valid_sortDir_spec|].
  split; [exact valid_pageSize_spec | exact valid_query_spec].
Qed.

(** C8 (as stated) fails in its integer part: a stored [pageSize] of 2.5
    passes [typeof ui.pageSize === 'number' && ui.pageSize > 0] and becomes
    the page size, while the invalid [filter] next to it falls back and the
    valid [sortDir] is taken. *)
Lemma restore_pageSize_counterexample :
  exists w : Store,
    construct Sample.odd_prefs = Normal w /\
    pageSize (state w) = Num.Fin (5 # 2) /\
    Num.is_positive_integer (pageSize (state w)) = false /\
    filter (state w) = ALL /\
    sortDir (state w) = ASC.
Proof.
  eexists. split; [vm_compute; reflexivity|].
  repeat split.
Qed.

(* ================================================================== *)
(** * Further properties of the store *)
(* ================================================================== *)

(* ------------------------------------------------------------------ *)
(** ** delete, its timer and undoDelete *)
(* ------------------------------------------------------------------ *)

Lemma first_with_id_none : forall bid l,
  mem_id bid l = false -> first_with_id bid l = None.
Proof.
  intros bid l H. unfold first_with_id, mem_id in *.
  induction l as [|x l IH]; simpl in *; [reflexivity|].
  apply orb_false_iff in H. destruct H as [H1 H2].
  rewrite H1. apply IH. exact H2.
Qed.

Lemma mem_id_app : forall bid l1 l2,
  mem_id bid (l1 ++ l2)%list = mem_id bid l1 || mem_id bid l2.
Proof. intros. unfold mem_id. apply existsb_app. Qed.

Lemma first_with_id_some : forall bid l,
  mem_id bid l = true -> exists b, first_with_id bid l = Some b.
Proof. intros bid l H. apply find_existsb. exact H. Qed.

(** X1: [delete] sends a delete request exactly when [serverItems] holds the
    id: a booking that is only in [localItems] is removed without any
    adapter call, and for an id that neither collection holds the whole
    store -- state, timers, subscriptions, localStorage -- is unchanged
    (not even [error] is cleared). *)
Theorem delete_requests_server_ids_only : forall (bid : string) (w : Store),
  subscriptions (delete bid w)
    = (subscriptions w
       ++ (if mem_id bid (serverItems (state w))
           then [ReqDelete bid (nextTimerId w) (state w)]
           else []))%list /\
  (mem_id bid (items (state w)) = false -> delete bid w = w) /\
  (mem_id bid (items (state w)) = true ->
   ~ In bid (ids (items (state (delete bid w)))) /\
   error (state (delete bid w)) = None /\
   localStorage (delete bid w) = localStorage w).
Proof.
  intros bid w.
  destruct (mem_id bid (items (state w))) eqn:E.
  - destruct (first_with_id_some bid _ E) as [b Hb].
    rewrite (delete_found bid b w Hb).
    destruct (mem_id bid (serverItems (state w))); cbn.
    + split; [reflexivity|]. split; [discriminate|]. intros _.
      split; [|split; reflexivity].
      unfold items, ids. cbn. rewrite map_app. intros H.
      apply in_app_or in H.
      destruct H as [H|H]; apply (filter_not_id bid _ H).
    + split; [symmetry; apply app_nil_r|]. split; [discriminate|].
      intros _. split; [|split; reflexivity].
      unfold items, ids. cbn. rewrite map_app. intros H.
      apply in_app_or in H.
      destruct H as [H|H]; apply (filter_not_id bid _ H).
  - rewrite (delete_absent bid w (first_with_id_none bid _ E)).
    unfold items in E. rewrite mem_id_app in E.
    apply orb_false_iff in E. destruct E as [_ E]. rewrite E.
    split; [symmetry; apply app_nil_r|].
    split; [reflexivity | discriminate].
Qed.

Lemma delete_requests_server_ids_only_witness :
  mem_id "9" (items (state Sample.loaded)) = false /\
  delete "9" Sample.loaded = Sample.loaded /\
  mem_id "3" (items (state (add Sample.b3 Sample.loaded))) = true /\
  subscriptions (delete "3" (add Sample.b3 Sample.loaded)) = [] /\
  ~ In "3" (ids (items (state (delete "3" (add Sample.b3 Sample.loaded))))).
Proof.
  destruct (delete_requests_server_ids_only "9" Sample.loaded)
    as (_ & Habsent & _).
  destruct (delete_requests_server_ids_only "3"
              (add Sample.b3 Sample.loaded)) as (Hsub & _ & Hgone).
  split; [reflexivity|]. split; [apply Habsent; reflexivity|].
  split; [reflexivity|]. split; [exact Hsub|].
  apply Hgone. reflexivity.
Defined.

(** X2: once the expiry timer that [delete] started fires, the delete is
    final: the pending slot is empty, the id is in neither collection, the
    collections are those the optimistic removal left, and [undoDelete]
    does nothing any more. *)
Theorem delete_is_final_after_expiry :
  forall (bid : string) (b : Booking) (w : Store),
  first_with_id bid (items (state w)) = Some b ->
  pendingDelete (state (delete bid w))
    = Some (mkPendingDelete b (nextTimerId w)) /\
  exists w',
    expire (nextTimerId w) (delete bid w) = Some w' /\
    pendingDelete (state w') = None /\
    ~ In (nextTimerId w) (timers w') /\
    localItems (state w') = localItems (state (delete bid w)) /\
    serverItems (state w') = serverItems (state (delete bid w)) /\
    ~ In bid (ids (items (state w'))) /\
    undoDelete w' = w'.
Proof.
  intros bid b w Hb. rewrite (delete_found bid b w Hb).
  assert (Hgone : forall s : BookingsState,
            ~ In bid (ids (List.filter (fun x => negb (has_id bid x))
                                       (localItems s)
                           ++ List.filter (fun x => negb (has_id bid x))
                                          (serverItems s))%list)).
  { intros s H. unfold ids in H. rewrite map_app in H.
    apply in_app_or in H.
    destruct H as [H|H]; apply (filter_not_id bid _ H). }
  destruct (mem_id bid (serverItems (state w))).
  - split; [reflexivity|]. unfold expire. cbn. rewrite Nat.eqb_refl. cbn.
    eexists. split; [reflexivity|]. cbn.
    split; [reflexivity|]. split.
    { intros H. rewrite Nat.eqb_refl in H. simpl in H.
      apply filter_In in H. destruct H as [_ H].
      rewrite Nat.eqb_refl in H. discriminate. }
    split; [reflexivity|]. split; [reflexivity|].
    split; [apply Hgone | reflexivity].
  - split; [reflexivity|]. unfold expire. cbn. rewrite Nat.eqb_refl. cbn.
    eexists. split; [reflexivity|]. cbn.
    split; [reflexivity|]. split.
    { intros H. rewrite Nat.eqb_refl in H. simpl in H.
      apply filter_In in H. destruct H as [_ H].
      rewrite Nat.eqb_refl in H. discriminate. }
    split; [reflexivity|]. split; [reflexivity|].
    split; [apply Hgone | reflexivity].
Qed.

Lemma delete_is_final_after_expiry_witness :
  first_with_id "2" (items (state Sample.loaded)) = Some Sample.b2 /\
  exists w',
    expire 1 (delete "2" Sample.loaded) = Some w' /\
    pendingDelete (state w') = None /\
    serverItems (state w') = [Sample.b1] /\
    undoDelete w' = w'.
Proof.
  split; [reflexivity|].
  destruct (delete_is_final_after_expiry "2" Sample.b2 Sample.loaded
              eq_refl) as (_ & w' & He & Hp & _ & _ & Hs & _ & Hu).
  exists w'. split; [exact He|]. split; [exact Hp|].
  split; [rewrite Hs; reflexivity | exact Hu].
Defined.

Lemma delete_present_fields : forall bid b w,
  first_with_id bid (items (state w)) = Some b ->
  pendingDelete (state (delete bid w))
    = Some (mkPendingDelete b (nextTimerId w)) /\
  nextTimerId (delete bid w) = S (nextTimerId w) /\
  timers (delete bid w) = timers (deleted bid b w) /\
  localItems (state (delete bid w))
    = List.filter (fun x => negb (has_id bid x)) (localItems (state w)) /\
  serverItems (state (delete bid w))
    = List.filter (fun x => negb (has_id bid x)) (serverItems (state w)).
Proof.
  intros bid b w Hb. rewrite (delete_found bid b w Hb).
  destruct (mem_id bid (serverItems (state w))); cbn; repeat split.
Qed.

Lemma ids_app : forall l1 l2, ids (l1 ++ l2) = (ids l1 ++ ids l2)%list.
Proof. intros. unfold ids. apply map_app. Qed.

Lemma ids_filter_sub : forall (p : Booking -> bool) l i,
  In i (ids (List.filter p l)) -> In i (ids l).
Proof.
  intros p l i H. unfold ids in *. apply in_map_iff in H.
  destruct H as [b [Hb Hin]]. apply filter_In in Hin. destruct Hin as [Hin _].
  apply in_map_iff. exists b. split; assumption.
Qed.

(** X3: there is one undo slot.  A second [delete] before the first one
    expired stops the first timer and takes the slot, so [undoDelete] brings
    back the second booking only; the first one stays deleted. *)
Theorem second_delete_takes_the_slot :
  forall (a b : string) (ba bb : Booking) (w : Store),
  first_with_id a (items (state w)) = Some ba ->
  first_with_id b (items (state (delete a w))) = Some bb ->
  pendingDelete (state (delete b (delete a w)))
    = Some (mkPendingDelete bb (S (nextTimerId w))) /\
  ~ In (nextTimerId w) (timers (delete b (delete a w))) /\
  In (S (nextTimerId w)) (timers (delete b (delete a w))) /\
  hd_error (localItems (state (undoDelete (delete b (delete a w)))))
    = Some bb /\
  ~ In a (ids (items (state (undoDelete (delete b (delete a w)))))).
Proof.
  intros a b ba bb w Ha Hb.
  destruct (delete_present_fields a ba w Ha) as (Hp1 & Hn1 & _ & Hl1 & Hs1).
  destruct (delete_present_fields b bb (delete a w) Hb)
    as (Hp2 & Hn2 & Ht2 & Hl2 & Hs2).
  rewrite Hn1 in Hp2.
  assert (Hab : id bb <> a).
  { intros Heq. apply first_with_id_In in Hb. destruct Hb as [Hin _].
    unfold items in Hin. rewrite Hl1, Hs1 in Hin.
    apply in_app_or in Hin.
    assert (Hid : In a (ids (List.filter (fun x => negb (has_id a x))
                                         (localItems (state w))))
                  \/ In a (ids (List.filter (fun x => negb (has_id a x))
                                            (serverItems (state w))))).
    { destruct Hin as [H|H]; apply (in_map id) in H; rewrite Heq in H;
        [left|right]; exact H. }
    destruct Hid as [H|H]; apply (filter_not_id a _ H). }
  split; [exact Hp2|]. split.
  { rewrite Ht2. unfold deleted. rewrite Hp1, Hn1. cbn.
    intros [H|H]; [lia|]. apply filter_In in H. destruct H as [_ H].
    rewrite Nat.eqb_refl in H. discriminate. }
  split.
  { rewrite Ht2. unfold deleted. rewrite Hn1. left. reflexivity. }
  unfold undoDelete. rewrite Hp2.
  split; [reflexivity|].
  unfold items.
  change (In a (ids ((bb :: localItems (state (delete b (delete a w))))
                     ++ serverItems (state (delete b (delete a w))))) ->
          False).
  rewrite Hl2, Hs2, Hl1, Hs1, ids_app. intros H.
  apply in_app_or in H. destruct H as [[H|H]|H].
  - contradiction.
  - apply ids_filter_sub in H. apply (filter_not_id a _ H).
  - apply ids_filter_sub in H. apply (filter_not_id a _ H).
Qed.

Lemma second_delete_takes_the_slot_witness :
  first_with_id "1" (items (state Sample.loaded)) = Some Sample.b1 /\
  first_with_id "2" (items (state (delete "1" Sample.loaded)))
    = Some Sample.b2 /\
  localItems (state (undoDelete (delete "2" (delete "1" Sample.loaded))))
    = [Sample.b2] /\
  ~ In "1" (ids (items (state (undoDelete
                                 (delete "2" (delete "1" Sample.loaded)))))).
Proof.
  split; [reflexivity|]. split; [reflexivity|].
  destruct (second_delete_takes_the_slot "1" "2" Sample.b1 Sample.b2
              Sample.loaded eq_refl eq_refl) as (_ & _ & _ & _ & Hgone).
  split; [reflexivity | exact Hgone].
Defined.

(** X4: [undoDelete] with an empty slot changes nothing, so undoing twice is
    undoing once; and [undoDelete] never talks to the adapter or to
    localStorage. *)
Theorem undoDelete_once : forall w : Store,
  undoDelete (undoDelete w) = undoDelete w /\
  (pendingDelete (state w) = None -> undoDelete w = w) /\
  subscriptions (undoDelete w) = subscriptions w /\
  localStorage (undoDelete w) = localStorage w /\
  serverItems (state (undoDelete w)) = serverItems (state w).
Proof.
  intros w. unfold undoDelete.
  destruct (pendingDelete (state w)) as [pd|] eqn:E.
  - cbn. repeat split. discriminate.
  - rewrite E. repeat split.
Qed.

Lemma undoDelete_once_witness :
  pendingDelete (state Sample.loaded) = None /\
  undoDelete Sample.loaded = Sample.loaded.
Proof.
  split; [reflexivity|].
  apply (undoDelete_once Sample.loaded). reflexivity.
Defined.

Lemma complete_at : forall j r resp w,
  nth_error (subscriptions w) j = Some r ->
  complete j resp w
  = callback r resp
      (mkStore (state w) (timers w) (nextTimerId w)
               (remove_nth j (subscriptions w)) (localStorage w)).
Proof. intros j r resp w H. unfold complete. rewrite H. reflexivity. Qed.

(** X5: the answer to a delete request that succeeded changes nothing: the
    undo slot and its timer stay.  An [undoDelete] after it puts the booking
    back into [localItems] only -- no request re-creates it on the server,
    whose list no longer needs to hold it -- and a later successful [load]
    keeps that local copy in front of whatever the server returns. *)
Theorem undo_after_server_delete_is_local :
  forall (bid : string) (b : Booking) (w : Store) (l : list Booking),
  first_with_id bid (items (state w)) = Some b ->
  mem_id bid (serverItems (state w)) = true ->
  exists w1 w2,
    complete (List.length (subscriptions w)) DeleteOk (delete bid w)
      = Some w1 /\
    state w1 = state (delete bid w) /\
    timers w1 = timers (delete bid w) /\
    subscriptions w1 = subscriptions w /\
    subscriptions (undoDelete w1) = subscriptions w /\
    hd_error (localItems (state (undoDelete w1))) = Some b /\
    ~ In bid (ids (serverItems (state (undoDelete w1)))) /\
    complete (List.length (subscriptions w)) (ListOk l)
             (load (undoDelete w1)) = Some w2 /\
    items (state w2) = (localItems (state (undoDelete w1)) ++ l)%list.
Proof.
  intros bid b w l Hb Hsrv.
  rewrite (delete_found bid b w Hb), Hsrv.
  eexists. eexists.
  split.
  { change (subscriptions w) with (subscriptions (deleted bid b w)).
    rewrite complete_last. reflexivity. }
  split; [reflexivity|]. split; [reflexivity|]. split; [reflexivity|].
  split; [reflexivity|]. split; [reflexivity|].
  split.
  { cbn. apply filter_not_id. }
  split.
  { unfold load.
    match goal with
    | |- complete _ _ (subscribe _ ?u) = _ =>
        change (subscriptions w) with (subscriptions u)
    end.
    rewrite complete_last. reflexivity. }
  reflexivity.
Qed.

Lemma undo_after_server_delete_is_local_witness :
  first_with_id "2" (items (state Sample.loaded)) = Some Sample.b2 /\
  mem_id "2" (serverItems (state Sample.loaded)) = true /\
  exists w1 w2,
    complete 0 DeleteOk (delete "2" Sample.loaded) = Some w1 /\
    complete 0 (ListOk [Sample.b1]) (load (undoDelete w1)) = Some w2 /\
    items (state w2) = [Sample.b2; Sample.b1].
Proof.
  split; [reflexivity|]. split; [reflexivity|].
  destruct (undo_after_server_delete_is_local "2" Sample.b2 Sample.loaded
              [Sample.b1] eq_refl eq_refl)
    as (w1 & w2 & H1 & _ & _ & _ & _ & _ & _ & H2 & H3).
  exists w1, w2. split; [exact H1|]. split; [exact H2|].
  rewrite H3. vm_compute in H1. injection H1 as <-. reflexivity.
Defined.

(* ------------------------------------------------------------------ *)
(** ** confirm, create and load *)
(* ------------------------------------------------------------------ *)

Lemma confirm_one_twice : forall bid b,
  confirm_one bid (confirm_one bid b) = confirm_one bid b.
Proof.
  intros bid b. unfold confirm_one.
  destruct (has_id bid b) eqn:E; [|rewrite E; reflexivity].
  unfold has_id in *. simpl. rewrite E. reflexivity.
Qed.

Lemma confirm_one_other : forall bid b,
  id b <> bid -> confirm_one bid b = b.
Proof.
  intros bid b H. unfold confirm_one, has_id.
  destruct (String.eqb (id b) bid) eqn:E; [|reflexivity].
  apply String.eqb_eq in E. contradiction.
Qed.

Lemma mem_id_confirm : forall bid l,
  mem_id bid (List.map (confirm_one bid) l) = mem_id bid l.
Proof. intros. unfold mem_id. apply existsb_map_confirm_one. Qed.

(** X6: the optimistic part of [confirm] rewrites the status of the bookings
    with the given id and nothing else: ids and positions in both
    collections stay, bookings with another id are untouched, and [error]
    is cleared.  A confirm request is sent exactly when [serverItems] holds
    the id; a booking that is local only is confirmed without any adapter
    call.  Confirming the same id again leaves the state as it is. *)
Theorem confirm_touches_one_id : forall (bid : string) (w : Store),
  localItems (state (confirm bid w))
    = List.map (confirm_one bid) (localItems (state w)) /\
  serverItems (state (confirm bid w))
    = List.map (confirm_one bid) (serverItems (state w)) /\
  ids (localItems (state (confirm bid w))) = ids (localItems (state w)) /\
  ids (serverItems (state (confirm bid w))) = ids (serverItems (state w)) /\
  (forall b, id b <> bid -> confirm_one bid b = b) /\
  (forall b, id b = bid -> status (confirm_one bid b) = CONFIRMED) /\
  subscriptions (confirm bid w)
    = (subscriptions w
       ++ (if mem_id bid (serverItems (state w))
           then [ReqConfirm bid] else []))%list /\
  error (state (confirm bid w)) = None /\
  state (confirm bid (confirm bid w)) = state (confirm bid w) /\
  localStorage (confirm bid w) = localStorage w.
Proof.
  intros bid w.
  assert (Hst : state (confirm bid w)
                = with_error None
                    (with_serverItems
                       (List.map (confirm_one bid) (serverItems (state w)))
                       (with_localItems
                          (List.map (confirm_one bid) (localItems (state w)))
                          (state w)))).
  { unfold confirm. cbn.
    destruct (existsb (has_id bid)
                (List.map (confirm_one bid) (serverItems (state w))));
      reflexivity. }
  split; [rewrite Hst; reflexivity|].
  split; [rewrite Hst; reflexivity|].
  split; [rewrite Hst; apply ids_map_confirm_one|].
  split; [rewrite Hst; apply ids_map_confirm_one|].
  split; [apply confirm_one_other|].
  split.
  { intros b Hb. rewrite (proj2 (confirm_one_status bid b) Hb).
    reflexivity. }
  split.
  { unfold confirm. cbn. rewrite existsb_map_confirm_one.
    unfold mem_id.
    destruct (existsb (has_id bid) (serverItems (state w)));
      cbn; [reflexivity | symmetry; apply app_nil_r]. }
  split; [rewrite Hst; reflexivity|].
  split.
  { assert (Hst2 : forall w0, state (confirm bid w0)
              = with_error None
                  (with_serverItems
                     (List.map (confirm_one bid) (serverItems (state w0)))
                     (with_localItems
                        (List.map (confirm_one bid) (localItems (state w0)))
                        (state w0)))).
    { intros w0. unfold confirm. cbn.
      destruct (existsb (has_id bid)
                  (List.map (confirm_one bid) (serverItems (state w0))));
        reflexivity. }
    rewrite (Hst2 (confirm bid w)), Hst. cbn.
    rewrite !map_map.
    rewrite (map_ext _ _ (confirm_one_twice bid)).
    rewrite (map_ext (fun x => confirm_one bid (confirm_one bid x)) _
                     (confirm_one_twice bid)).
    reflexivity. }
  unfold confirm. cbn.
  destruct (existsb (has_id bid)
              (List.map (confirm_one bid) (serverItems (state w))));
    reflexivity.
Qed.

Lemma confirm_touches_one_id_witness :
  id Sample.b2 <> "1" /\
  id Sample.b1 = "1" /\
  serverItems (state (confirm "1" Sample.loaded))
    = [with_status CONFIRMED Sample.b1; Sample.b2] /\
  subscriptions (confirm "3" (add Sample.b3 Sample.loaded)) = [].
Proof.
  destruct (confirm_touches_one_id "1" Sample.loaded)
    as (_ & Hs & _ & _ & Hother & Hconf & _).
  destruct (confirm_touches_one_id "3" (add Sample.b3 Sample.loaded))
    as (_ & _ & _ & _ & _ & _ & Hsub & _).
  split; [discriminate|]. split; [reflexivity|].
  split; [|exact Hsub].
  rewrite Hs. simpl.
  rewrite (Hother Sample.b2) by discriminate.
  reflexivity.
Defined.

Lemma replace_other : forall bid updated l b,
  In b l -> id b <> bid ->
  In b (List.map (fun x => if has_id bid x then updated else x) l).
Proof.
  intros bid updated l b Hin Hid. apply in_map_iff. exists b.
  split; [|exact Hin]. unfold has_id.
  destruct (String.eqb (id b) bid) eqn:E; [|reflexivity].
  apply String.eqb_eq in E. contradiction.
Qed.

(** X7: when a confirm request succeeds, the booking the server returned
    replaces every booking of [serverItems] that has the confirmed id;
    every other server booking, the whole of [localItems], [error],
    [loading], the page and the undo slot stay as they are.  The number of
    server bookings does not change. *)
Theorem confirm_success_replaces_server_copy :
  forall (w : Store) (j : nat) (bid : string) (updated : Booking),
  nth_error (subscriptions w) j = Some (ReqConfirm bid) ->
  exists w',
    complete j (BookingOk updated) w = Some w' /\
    serverItems (state w')
      = List.map (fun b => if has_id bid b then updated else b)
                 (serverItems (state w)) /\
    state w' = with_serverItems (serverItems (state w')) (state w) /\
    List.length (serverItems (state w'))
      = List.length (serverItems (state w)) /\
    (forall b, In b (serverItems (state w)) -> id b <> bid ->
               In b (serverItems (state w'))) /\
    (forall b, In b (serverItems (state w')) ->
               b = updated \/ (In b (serverItems (state w)) /\ id b <> bid)) /\
    (mem_id bid (serverItems (state w)) = true ->
     In updated (serverItems (state w'))) /\
    subscriptions w' = remove_nth j (subscriptions w).
Proof.
  intros w j bid updated Hj. rewrite (complete_at j _ _ w Hj). cbn.
  eexists. split; [reflexivity|]. cbn.
  split; [reflexivity|]. split; [reflexivity|].
  split; [apply length_map|].
  split; [intros b; apply replace_other|].
  split.
  { intros b Hb. apply in_map_iff in Hb. destruct Hb as [x [Hx Hin]].
    destruct (has_id bid x) eqn:E; [left; symmetry; exact Hx|].
    right. subst x. split; [exact Hin|]. unfold has_id in E.
    intros Heq. rewrite Heq, String.eqb_refl in E. discriminate. }
  split; [|reflexivity].
  intros Hmem. unfold mem_id in Hmem. apply existsb_exists in Hmem.
  destruct Hmem as [x [Hin Hx]]. apply in_map_iff. exists x.
  rewrite Hx. split; [reflexivity | exact Hin].
Qed.

Lemma confirm_success_replaces_server_copy_witness :
  nth_error (subscriptions (confirm "1" Sample.loaded)) 0
    = Some (ReqConfirm "1") /\
  exists w',
    complete 0 (BookingOk (with_status DONE Sample.b1))
             (confirm "1" Sample.loaded) = Some w' /\
    serverItems (state w') = [with_status DONE Sample.b1; Sample.b2].
Proof.
  split; [reflexivity|].
  destruct (confirm_success_replaces_server_copy
              (confirm "1" Sample.loaded) 0 "1"
              (with_status DONE Sample.b1) eq_refl)
    as (w' & Hc & Hs & _).
  exists w'. split; [exact Hc|]. rewrite Hs. reflexivity.
Defined.


(** X9: a successful [load] replaces [serverItems] by the list received and
    nothing else: the bookings of [localItems] survive the reload and keep
    their place in front, the page is not reset, the undo slot is kept,
    [loading] is down and [error] stays cleared. *)
Theorem load_success_keeps_local_items :
  forall (w : Store) (l : list Booking),
  let k := List.length (subscriptions w) in
  loading (state (load w)) = true /\
  error (state (load w)) = None /\
  items (state (load w)) = items (state w) /\
  exists w',
    complete k (ListOk l) (load w) = Some w' /\
    state w'
      = with_loading false
          (with_serverItems l (with_error None
                                 (with_loading true (state w)))) /\
    serverItems (state w') = l /\
    localItems (state w') = localItems (state w) /\
    items (state w') = (localItems (state w) ++ l)%list /\
    page (state w') = page (state w) /\
    pendingDelete (state w') = pendingDelete (state w) /\
    loading (state w') = false /\
    error (state w') = None /\
    subscriptions w' = subscriptions w /\
    timers w' = timers w.
Proof.
  intros w l k.
  split; [reflexivity|]. split; [reflexivity|]. split; [reflexivity|].
  eexists. split.
  { unfold load. subst k.
    match goal with
    | |- complete _ _ (subscribe _ ?u) = _ =>
        change (subscriptions w) with (subscriptions u)
    end.
    rewrite complete_last. reflexivity. }
  cbn. repeat split.
Qed.

(* ------------------------------------------------------------------ *)
(** ** The undo slot and its timers *)
(* ------------------------------------------------------------------ *)

Lemma timers_sound_clear : forall t w,
  timers_sound w ->
  (forall t', In t' (timers (clearTimeout t w)) -> t' < nextTimerId w) /\
  NoDup (timers (clearTimeout t w)).
Proof.
  intros t w (_ & Hlt & Hnd). split.
  - intros t' H. apply filter_In in H. apply Hlt. tauto.
  - apply NoDup_filter. exact Hnd.
Qed.

Lemma timers_sound_same : forall w w',
  timers_sound w ->
  pendingDelete (state w') = pendingDelete (state w) ->
  timers w' = timers w -> nextTimerId w' = nextTimerId w ->
  timers_sound w'.
Proof.
  intros w w' H Hp Ht Hn. unfold timers_sound in *.
  rewrite Hp, Ht, Hn. exact H.
Qed.

Lemma timers_sound_emptied : forall t w s,
  timers_sound w -> pendingDelete s = None ->
  timers_sound (mkStore s (timers (clearTimeout t w)) (nextTimerId w)
                        (subscriptions w) (localStorage w)).
Proof.
  intros t w s H Hs. destruct (timers_sound_clear t w H) as [Hlt Hnd].
  split; [|split].
  - simpl. rewrite Hs. discriminate.
  - exact Hlt.
  - exact Hnd.
Qed.

Lemma timers_sound_deleted : forall bid b w,
  timers_sound w -> timers_sound (deleted bid b w).
Proof.
  intros bid b w H.
  assert (Hc : (forall t', In t' (match pendingDelete (state w) with
                                  | Some prev =>
                                      timers (clearTimeout (timerId prev) w)
                                  | None => timers w
                                  end) -> t' < nextTimerId w)
               /\ NoDup (match pendingDelete (state w) with
                         | Some prev =>
                             timers (clearTimeout (timerId prev) w)
                         | None => timers w
                         end)).
  { destruct (pendingDelete (state w)) as [prev|].
    - apply timers_sound_clear. exact H.
    - destruct H as (_ & Hlt & Hnd). split; assumption. }
  destruct Hc as [Hlt Hnd]. unfold deleted. split; [|split]; simpl.
  - intros pd Hpd. injection Hpd as <-. left. reflexivity.
  - intros t [<-|Ht]; [lia|]. apply Hlt in Ht. lia.
  - constructor; [|exact Hnd]. intros Hin. apply Hlt in Hin. lia.
Qed.

Lemma timers_sound_delete : forall bid w,
  timers_sound w -> timers_sound (delete bid w).
Proof.
  intros bid w H.
  destruct (first_with_id bid (items (state w))) as [b|] eqn:E.
  - rewrite (delete_found bid b w E).
    destruct (mem_id bid (serverItems (state w))).
    + apply (timers_sound_same (deleted bid b w));
        [apply timers_sound_deleted; exact H | | | ]; reflexivity.
    + apply timers_sound_deleted. exact H.
  - rewrite (delete_absent bid w E). exact H.
Qed.

Lemma timers_sound_step : forall Date_parse w ev w',
  timers_sound w -> step Date_parse w ev = Some w' -> timers_sound w'.
Proof.
  intros dp w ev w' H Hstep.
  destruct ev; simpl in Hstep; try (injection Hstep as <-);
    try (apply (timers_sound_same w); [exact H | | | ]; reflexivity).
  - (* confirm *)
    apply (timers_sound_same w); [exact H | | | ];
      unfold confirm; cbn;
      destruct (existsb (has_id bid)
                  (List.map (confirm_one bid) (serverItems (state w))));
      reflexivity.
  - apply timers_sound_delete. exact H.
  - (* undoDelete *)
    unfold undoDelete.
    destruct (pendingDelete (state w)) as [pd|]; [|exact H].
    apply (timers_sound_emptied (timerId pd) w); [exact H | reflexivity].
  - (* an adapter call completes *)
    unfold complete in Hstep.
    destruct (nth_error (subscriptions w) k) as [r|]; [|discriminate].
    destruct r as [|req|bid|bid tid s0]; destruct resp as [l|b| |err];
      simpl in Hstep; try discriminate; injection Hstep as <-;
      try (apply (timers_sound_same w); [exact H | | | ]; reflexivity).
    destruct (timers_sound_clear tid w H) as [Hlt Hnd].
    split; [|split].
    + cbn. discriminate.
    + exact Hlt.
    + exact Hnd.
  - (* a timer fires *)
    unfold expire in Hstep.
    destruct (existsb (Nat.eqb t) (timers w)); [|discriminate].
    injection Hstep as <-.
    destruct (timers_sound_clear t w H) as [Hlt Hnd].
    split; [|split].
    + cbn. discriminate.
    + exact Hlt.
    + exact Hnd.
Qed.

Lemma timers_sound_run : forall Date_parse evs w w',
  timers_sound w -> run Date_parse w evs = Some w' -> timers_sound w'.
Proof.
  intros dp. induction evs as [|ev evs IH]; intros w w' H Hrun;
    simpl in Hrun.
  - injection Hrun as <-. exact H.
  - destruct (step dp w ev) as [w1|] eqn:E; [|discriminate].
    apply (IH w1); [|exact Hrun].
    apply (timers_sound_step dp w ev); assumption.
Qed.

Lemma timers_sound_construct : forall stored w,
  construct stored = Normal w -> timers_sound w.
Proof.
  intros stored w H. unfold construct in H.
  destruct (loadUiState stored initialState) as [s|e] eqn:E;
    simpl in H; [|discriminate].
  injection H as <-. apply loadUiState_items in E.
  destruct E as (_ & _ & Hp & _).
  split; [|split]; simpl.
  - rewrite Hp. discriminate.
  - intros t [].
  - constructor.
Qed.

(** X10: in every store that a session reaches -- whatever the adapter
    answers and in whatever order -- a pending delete has its expiry timer
    running, so the undo slot cannot stay filled for ever: the expiry can
    fire and empties the slot.  Timer handles are never reused and none
    runs twice. *)
Theorem pending_delete_has_a_running_timer :
  forall (Date_parse : string -> number) (stored : Stored) (w0 : Store)
         (evs : list Event) (w : Store),
  construct stored = Normal w0 ->
  run Date_parse w0 evs = Some w ->
  NoDup (timers w) /\
  (forall t, In t (timers w) -> t < nextTimerId w) /\
  forall pd,
    pendingDelete (state w) = Some pd ->
    In (timerId pd) (timers w) /\
    exists w',
      step Date_parse w (EvExpire (timerId pd)) = Some w' /\
      pendingDelete (state w') = None /\
      ~ In (timerId pd) (timers w').
Proof.
  intros dp stored w0 evs w Hc Hrun.
  assert (H : timers_sound w).
  { apply (timers_sound_run dp evs w0);
      [apply (timers_sound_construct stored); exact Hc | exact Hrun]. }
  destruct H as (Hpd & Hlt & Hnd).
  split; [exact Hnd|]. split; [exact Hlt|].
  intros pd Hp. specialize (Hpd pd Hp). split; [exact Hpd|].
  simpl. unfold expire.
  assert (He : existsb (Nat.eqb (timerId pd)) (timers w) = true).
  { apply existsb_exists. exists (timerId pd).
    split; [exact Hpd | apply Nat.eqb_refl]. }
  rewrite He. eexists. split; [reflexivity|].
  split; [reflexivity|]. apply clearTimeout_not_in.
Qed.

Lemma pending_delete_has_a_running_timer_witness :
  construct NoItem = Normal Sample.fresh /\
  exists w,
    run Sample.no_dates Sample.fresh
        [EvLoad; EvComplete 0 (ListOk [Sample.b1; Sample.b2]);
         EvDelete "1"; EvDelete "2"] = Some w /\
    timers w = [2] /\
    exists w',
      step Sample.no_dates w (EvExpire 2) = Some w' /\
      pendingDelete (state w') = None.
Proof.
  split; [reflexivity|].
  eexists. split; [vm_compute; reflexivity|]. split; [reflexivity|].
  destruct (pending_delete_has_a_running_timer Sample.no_dates NoItem
              Sample.fresh
              [EvLoad; EvComplete 0 (ListOk [Sample.b1; Sample.b2]);
               EvDelete "1"; EvDelete "2"] _ eq_refl
              ltac:(vm_compute; reflexivity))
    as (_ & _ & Hpd).
  destruct (Hpd (mkPendingDelete Sample.b2 2) eq_refl)
    as (_ & w' & Hs & Hp & _).
  exists w'. split; [exact Hs | exact Hp].
Defined.

(* ------------------------------------------------------------------ *)
(** ** What is persisted *)
(* ------------------------------------------------------------------ *)

Lemma setter_saves : forall Date_parse w ev w1,
  is_setter ev = true -> step Date_parse w ev = Some w1 ->
  localStorage w1 = Parsable (ui_json (state w1)).
Proof.
  intros dp w ev w1 Hs Hstep.
  destruct ev; simpl in Hs; try discriminate; simpl in Hstep;
    injection Hstep as <-; reflexivity.
Qed.

Lemma restore_saved : forall s : BookingsState,
  exists s',
    loadUiState (Parsable (ui_json s)) initialState = Normal s' /\
    filter s' = filter s /\
    sortKey s' = sortKey s /\
    sortDir s' = sortDir s /\
    query s' = query s /\
    pageSize s'
      = (if persistable (pageSize s) then pageSize s else Num.of_Z 10) /\
    page s' = Num.of_Z 1 /\
    localItems s' = [] /\ serverItems s' = [] /\
    pendingDelete s' = None /\ loading s' = false /\ error s' = None.
Proof.
  intros s. eexists. split; [reflexivity|]. cbn.
  split; [destruct (filter s); reflexivity|].
  split; [destruct (sortKey s); reflexivity|].
  split; [destruct (sortDir s); reflexivity|].
  split; [reflexivity|].
  split; [|repeat split].
  destruct (pageSize s) as [| | |q]; try reflexivity.
  unfold persistable. cbn.
  destruct (negb (Qle_bool q (inject_Z 0))); reflexivity.
Qed.

(** X11: the preferences survive a reload.  After [setQuery], [setSort],
    [setPageSize] or [setFilter], a store constructed from what localStorage
    then holds starts with the same [filter], [sortKey], [sortDir] and
    [query]; with the same [pageSize] if that is finite and greater than 0,
    and with 10 otherwise; on page 1; and with no booking, no pending
    delete, no error: bookings and the page are not persisted. *)
Theorem preferences_survive_reload :
  forall (Date_parse : string -> number) (w : Store) (ev : Event)
         (w1 : Store),
  is_setter ev = true ->
  step Date_parse w ev = Some w1 ->
  exists w2,
    construct (localStorage w1) = Normal w2 /\
    filter (state w2) = filter (state w1) /\
    sortKey (state w2) = sortKey (state w1) /\
    sortDir (state w2) = sortDir (state w1) /\
    query (state w2) = query (state w1) /\
    pageSize (state w2)
      = (if persistable (pageSize (state w1)) then pageSize (state w1)
         else Num.of_Z 10) /\
    page (state w2) = Num.of_Z 1 /\
    items (state w2) = [] /\
    pendingDelete (state w2) = None /\
    error (state w2) = None /\
    subscriptions w2 = [] /\
    timers w2 = [].
Proof.
  intros dp w ev w1 Hs Hstep.
  rewrite (setter_saves dp w ev w1 Hs Hstep).
  destruct (restore_saved (state w1))
    as (s' & Hl & Hf & Hk & Hd & Hq & Hn & Hp & Hloc & Hsrv & Hpd & _ & He).
  exists (mkStore s' [] 1 [] (Parsable (ui_json (state w1)))).
  split.
  { unfold construct. rewrite Hl. reflexivity. }
  simpl. unfold items. rewrite Hloc, Hsrv.
  repeat split; assumption.
Qed.

Lemma preferences_survive_reload_witness :
  is_setter (EvSetPageSize Num.NaN) = true /\
  is_setter (EvSetFilter FilterNEW) = true /\
  exists w1 w2 w3 w4,
    step Sample.no_dates Sample.loaded (EvSetFilter FilterNEW) = Some w1 /\
    construct (localStorage w1) = Normal w2 /\
    filter (state w2) = FilterNEW /\
    step Sample.no_dates Sample.loaded (EvSetPageSize Num.NaN) = Some w3 /\
    construct (localStorage w3) = Normal w4 /\
    pageSize (state w3) = Num.NaN /\
    pageSize (state w4) = Num.of_Z 10.
Proof.
  split; [reflexivity|]. split; [reflexivity|].
  destruct (preferences_survive_reload Sample.no_dates Sample.loaded
              (EvSetFilter FilterNEW) _ eq_refl eq_refl)
    as (w2 & Hc2 & Hf & _).
  destruct (preferences_survive_reload Sample.no_dates Sample.loaded
              (EvSetPageSize Num.NaN) _ eq_refl eq_refl)
    as (w4 & Hc4 & _ & _ & _ & _ & Hn & _).
  eexists. exists w2. eexists. exists w4.
  split; [reflexivity|]. split; [exact Hc2|]. split; [exact Hf|].
  split; [reflexivity|]. split; [exact Hc4|]. split; [reflexivity|].
  exact Hn.
Defined.

Lemma delete_storage : forall bid w,
  localStorage (delete bid w) = localStorage w.
Proof.
  intros bid w.
  destruct (first_with_id bid (items (state w))) as [b|] eqn:E.
  - rewrite (delete_found bid b w E).
    destruct (mem_id bid (serverItems (state w))); reflexivity.
  - rewrite (delete_absent bid w E). reflexivity.
Qed.

(** X12: localStorage is written by the four setters and by nothing else.
    Loading, creating, confirming, deleting, undoing, adding, paging, every
    adapter answer and the undo timer leave it as it is; a setter replaces
    it by the five preferences of the state it produced.  No booking is ever
    written. *)
Theorem only_setters_write_storage :
  forall (Date_parse : string -> number) (w : Store) (ev : Event)
         (w1 : Store),
  step Date_parse w ev = Some w1 ->
  localStorage w1
  = (if is_setter ev then Parsable (ui_json (state w1))
     else localStorage w).
Proof.
  intros dp w ev w1 Hstep.
  destruct (is_setter ev) eqn:Hs.
  - apply (setter_saves dp w ev w1 Hs Hstep).
  - destruct ev; simpl in Hs; try discriminate; simpl in Hstep;
      try (injection Hstep as <-; reflexivity).
    + injection Hstep as <-. unfold confirm. cbn.
      destruct (existsb (has_id bid)
                  (List.map (confirm_one bid) (serverItems (state w))));
        reflexivity.
    + injection Hstep as <-. apply delete_storage.
    + injection Hstep as <-. unfold undoDelete.
      destruct (pendingDelete (state w)); reflexivity.
    + unfold complete in Hstep.
      destruct (nth_error (subscriptions w) k) as [r|]; [|discriminate].
      destruct r; destruct resp; simpl in Hstep; try discriminate;
        injection Hstep as <-; reflexivity.
    + unfold expire in Hstep.
      destruct (existsb (Nat.eqb t) (timers w)); [|discriminate].
      injection Hstep as <-. reflexivity.
Qed.

Lemma only_setters_write_storage_witness :
  exists w1,
    step Sample.no_dates Sample.loaded (EvDelete "2") = Some w1 /\
    localStorage w1 = NoItem.
Proof.
  eexists. split; [reflexivity|].
  apply (only_setters_write_storage Sample.no_dates Sample.loaded
           (EvDelete "2")). reflexivity.
Defined.

(* ------------------------------------------------------------------ *)
(** ** counts and the search *)
(* ------------------------------------------------------------------ *)

Lemma filter_length_le : forall (A : Type) (p : A -> bool) (l : list A),
  List.length (List.filter p l) <= List.length l.
Proof.
  intros A p l. induction l as [|x l IH]; simpl; [lia|].
  destruct (p x); simpl; lia.
Qed.

Lemma new_confirmed_le : forall l : list Booking,
  List.length (List.filter (status_is FilterNEW) l)
  + List.length (List.filter (status_is FilterCONFIRMED) l)
  <= List.length l.
Proof.
  induction l as [|b l IH]; simpl; [lia|].
  unfold status_is in *. destruct (status b); simpl; lia.
Qed.

(** X13: [counts] looks at all bookings and at nothing else: [all] is the
    length of [items], [new] and [confirmed] together never exceed it, and
    no filter, query, sort or page setting changes the three numbers.  The
    filter tabs agree with the badges: when the query is blank,
    [visibleItems] has exactly [all], [new] or [confirmed] entries under the
    filter of that name; with any query it has at most that many. *)
Theorem counts_match_filter_tabs : forall s : BookingsState,
  count_all (counts s) = List.length (items s) /\
  count_new (counts s) + count_confirmed (counts s) <= count_all (counts s) /\
  (forall f q p n k d,
     counts (with_filter f (with_query q (with_page p (with_pageSize n
               (with_sortKey k (with_sortDir d s))))))
     = counts s) /\
  List.length (visibleItems s)
    <= match filter s with
       | ALL => count_all (counts s)
       | FilterNEW => count_new (counts s)
       | FilterCONFIRMED => count_confirmed (counts s)
       end /\
  (all_space (query s) = true ->
   List.length (visibleItems s)
   = match filter s with
     | ALL => count_all (counts s)
     | FilterNEW => count_new (counts s)
     | FilterCONFIRMED => count_confirmed (counts s)
     end).
Proof.
  intros s.
  assert (Hf : List.length (List.filter (passes_filter (filter s)) (items s))
               = match filter s with
                 | ALL => count_all (counts s)
                 | FilterNEW => count_new (counts s)
                 | FilterCONFIRMED => count_confirmed (counts s)
                 end).
  { unfold counts, items. destruct (filter s); simpl; try reflexivity.
    rewrite filter_all; reflexivity. }
  split; [reflexivity|].
  split; [unfold counts; simpl; apply new_confirmed_le|].
  split; [reflexivity|].
  split.
  - rewrite visibleItems_filters, <- Hf. apply filter_length_le.
  - intros Hq. rewrite visibleItems_filters, <- Hf. f_equal.
    apply filter_all. intros b. unfold matches_query.
    rewrite (all_space_trim _ Hq). apply includes_empty.
Qed.

Lemma counts_match_filter_tabs_witness :
  all_space (query (state (setFilter FilterNEW Sample.loaded))) = true /\
  List.length (visibleItems (state (setFilter FilterNEW Sample.loaded)))
    = count_new (counts (state Sample.loaded)) /\
  counts (state (setFilter FilterNEW Sample.loaded)) = mkCounts 2 1 1.
Proof.
  split; [reflexivity|].
  destruct (counts_match_filter_tabs
              (state (setFilter FilterNEW Sample.loaded)))
    as (_ & _ & _ & _ & Heq).
  split; [rewrite (Heq eq_refl); reflexivity | reflexivity].
Defined.

Lemma append_assoc3 : forall a b c : string,
  ((a ++ b) ++ c = a ++ (b ++ c))%string.
Proof.
  induction a as [|x a IH]; intros b c; simpl; [reflexivity|].
  rewrite IH. reflexivity.
Qed.

Lemma substring_of_trans : forall a b c,
  substring_of a b -> substring_of b c -> substring_of a c.
Proof.
  intros a b c [p1 [s1 H1]] [p2 [s2 H2]]. subst b c.
  exists (p2 ++ p1)%string, (s1 ++ s2)%string.
  rewrite !append_assoc3. reflexivity.
Qed.

(** X14: refining the query never adds results.  If the normalised text of
    one query (trimmed, lower-cased) occurs in the normalised text of
    another, every booking shown for the longer query is shown for the
    shorter one; and whatever the query and the filter, [visibleItems] only
    shows bookings of [items]. *)
Theorem refining_the_query_narrows :
  forall (s : BookingsState) (q1 q2 : string) (b : Booking),
  substring_of (toLowerCase (trim q1)) (toLowerCase (trim q2)) ->
  In b (visibleItems (with_query q2 s)) ->
  In b (visibleItems (with_query q1 s)) /\ In b (items s).
Proof.
  intros s q1 q2 b Hsub Hin.
  apply visibleItems_In in Hin. destruct Hin as [Hitems Hshown].
  split; [|exact Hitems].
  apply visibleItems_In. split; [exact Hitems|].
  simpl in *. unfold shown in *.
  apply andb_true_iff in Hshown. destruct Hshown as [Hf Hq].
  apply andb_true_iff. split; [exact Hf|].
  unfold matches_query in *. apply includes_spec.
  apply includes_spec in Hq.
  apply (substring_of_trans _ _ _ Hsub Hq).
Qed.

Lemma refining_the_query_narrows_witness :
  substring_of (toLowerCase (trim "Main ")) (toLowerCase (trim "main st")) /\
  In Sample.b1 (visibleItems (with_query "main st" (state Sample.loaded))) /\
  In Sample.b1 (visibleItems (with_query "Main " (state Sample.loaded))).
Proof.
  assert (Hsub : substring_of (toLowerCase (trim "Main "))
                              (toLowerCase (trim "main st"))).
  { exists "", " st". reflexivity. }
  assert (Hin : In Sample.b1
                   (visibleItems (with_query "main st"
                                             (state Sample.loaded)))).
  { left. reflexivity. }
  split; [exact Hsub|]. split; [exact Hin|].
  apply (refining_the_query_narrows (state Sample.loaded) "Main " "main st"
           Sample.b1 Hsub Hin).
Defined.

(* ------------------------------------------------------------------ *)
(** ** Sorting *)
(* ------------------------------------------------------------------ *)

Lemma insert_sorted_perm : forall (A : Type) (gt : A -> A -> bool) x l,
  Permutation (insert_sorted gt x l) (x :: l).
Proof.
  intros A gt x l. induction l as [|y l IH]; simpl.
  - apply Permutation_refl.
  - destruct (gt x y).
    + apply (perm_trans (l' := y :: x :: l)).
      * apply perm_skip. exact IH.
      * apply perm_swap.
    + apply Permutation_refl.
Qed.

Lemma sort_perm : forall (A : Type) (gt : A -> A -> bool) l,
  Permutation (sort gt l) l.
Proof.
  intros A gt l. induction l as [|x l IH]; simpl.
  - apply perm_nil.
  - apply (perm_trans (l' := x :: sort gt l)).
    + apply insert_sorted_perm.
    + apply perm_skip. exact IH.
Qed.

(** X15: sorting loses no row and invents none: [sortedVisibleItems] is a
    permutation of [visibleItems] for every sort key and direction and
    whatever [Date.parse] returns.  Hence [totalRows] is the number of
    visible bookings, and neither it nor [totalPages] depends on how the
    list is sorted. *)
Theorem sorting_keeps_every_row :
  forall (Date_parse : string -> number) (s : BookingsState),
  Permutation (sortedVisibleItems Date_parse s) (visibleItems s) /\
  (forall b, In b (sortedVisibleItems Date_parse s)
             <-> In b (visibleItems s)) /\
  totalRows Date_parse s = List.length (visibleItems s) /\
  (forall k d,
     totalRows Date_parse (with_sortKey k (with_sortDir d s))
       = totalRows Date_parse s /\
     totalPages Date_parse (with_sortKey k (with_sortDir d s))
       = totalPages Date_parse s).
Proof.
  intros dp s.
  assert (Hp : forall s0, Permutation (sortedVisibleItems dp s0)
                                      (visibleItems s0)).
  { intros s0. unfold sortedVisibleItems. apply sort_perm. }
  assert (Hlen : forall s0, List.length (sortedVisibleItems dp s0)
                            = List.length (visibleItems s0)).
  { intros s0. apply Permutation_length. apply Hp. }
  split; [apply Hp|]. split.
  { intros b. split; apply Permutation_in;
      [apply Hp | apply Permutation_sym; apply Hp]. }
  split; [apply Hlen|].
  intros k d. unfold totalRows, totalPages. rewrite !Hlen.
  split; reflexivity.
Qed.

Section SortedOutput.

Variable Date_parse : string -> number.
Variable key : SortKey.
Variable dir : SortDir.

Local Abbreviation gt :=
  (fun a b : Booking =>
     Num.gtb (compare_bookings Date_parse key dir a b) Num.zero).

Lemma gt_finite : forall a b x y,
  sort_value Date_parse key a = Num.Fin x ->
  sort_value Date_parse key b = Num.Fin y ->
  gt a b = match dir with
           | ASC => negb (Qle_bool (x + - y) (inject_Z 0))
           | DESC => negb (Qle_bool (y + - x) (inject_Z 0))
           end.
Proof.
  intros a b x y Ha Hb. cbv beta. unfold compare_bookings.
  rewrite Ha, Hb. destruct dir; reflexivity.
Qed.

Lemma not_gt_in_order : forall a b,
  finite_key Date_parse key a -> finite_key Date_parse key b ->
  gt a b = false -> in_order Date_parse key dir a b.
Proof.
  intros a b [x Ha] [y Hb] H. rewrite (gt_finite a b x y Ha Hb) in H.
  unfold in_order. rewrite Ha, Hb.
  destruct dir; apply negb_false_iff in H; apply Qle_bool_iff in H;
    unfold inject_Z in H; lra.
Qed.

Lemma gt_in_order_rev : forall a b,
  finite_key Date_parse key a -> finite_key Date_parse key b ->
  gt a b = true -> in_order Date_parse key dir b a.
Proof.
  intros a b [x Ha] [y Hb] H. rewrite (gt_finite a b x y Ha Hb) in H.
  unfold in_order. rewrite Ha, Hb.
  destruct dir; apply negb_true_iff in H;
    rewrite <- not_true_iff_false, Qle_bool_iff in H;
    unfold inject_Z in H; lra.
Qed.

Lemma in_order_trans : forall a b c,
  in_order Date_parse key dir a b -> in_order Date_parse key dir b c ->
  in_order Date_parse key dir a c.
Proof.
  intros a b c. unfold in_order.
  destruct (sort_value Date_parse key a); try contradiction.
  destruct (sort_value Date_parse key b); try contradiction.
  destruct (sort_value Date_parse key c); try contradiction.
  destruct dir; intros; lra.
Qed.

Lemma insert_sorted_sorted : forall x l,
  finite_key Date_parse key x ->
  Forall (finite_key Date_parse key) l ->
  StronglySorted (in_order Date_parse key dir) l ->
  StronglySorted (in_order Date_parse key dir) (insert_sorted gt x l).
Proof.
  intros x l Hx. induction l as [|y l IH]; intros Hfin Hs; simpl.
  - constructor; constructor.
  - inversion Hfin as [|? ? Hy Hfin']; subst.
    inversion Hs as [|? ? Hs' Hall]; subst.
    destruct (gt x y) eqn:E.
    + constructor; [apply IH; assumption|].
      apply (Permutation_Forall
               (Permutation_sym (insert_sorted_perm _ gt x l))).
      constructor; [|exact Hall].
      apply gt_in_order_rev; assumption.
    + assert (Hxy : in_order Date_parse key dir x y)
        by (apply not_gt_in_order; assumption).
      constructor; [exact Hs|].
      constructor; [exact Hxy|].
      apply (Forall_impl _ (fun c => in_order_trans x y c Hxy) Hall).
Qed.

Lemma sort_sorted : forall l,
  Forall (finite_key Date_parse key) l ->
  StronglySorted (in_order Date_parse key dir) (sort gt l).
Proof.
  induction l as [|x l IH]; intros Hfin; simpl.
  - constructor.
  - inversion Hfin as [|? ? Hx Hfin']; subst.
    apply insert_sorted_sorted; [exact Hx | | apply IH; exact Hfin'].
    apply (Permutation_Forall (Permutation_sym (sort_perm _ gt l))).
    exact Hfin'.
Qed.

Lemma gt_other_key : forall v x y,
  has_key Date_parse key v x = true -> gt x y = true ->
  has_key Date_parse key v y = false.
Proof.
  intros v x y Hx Hgt. unfold has_key in *.
  destruct (sort_value Date_parse key x) as [| | |qx] eqn:Ex;
    try discriminate.
  destruct (sort_value Date_parse key y) as [| | |qy] eqn:Ey;
    try reflexivity.
  rewrite (gt_finite x y qx qy Ex Ey) in Hgt.
  apply Qeq_bool_iff in Hx.
  apply not_true_iff_false. intros Hy. apply Qeq_bool_iff in Hy.
  destruct dir; apply negb_true_iff in Hgt;
    rewrite <- not_true_iff_false, Qle_bool_iff in Hgt;
    unfold inject_Z in Hgt; lra.
Qed.

Lemma filter_insert_sorted : forall v x l,
  List.filter (has_key Date_parse key v) (insert_sorted gt x l)
  = List.filter (has_key Date_parse key v) (x :: l).
Proof.
  intros v x l. induction l as [|y l IH]; [reflexivity|].
  simpl insert_sorted. destruct (gt x y) eqn:E; [|reflexivity].
  simpl. simpl in IH. rewrite IH.
  destruct (has_key Date_parse key v x) eqn:Hx; [|reflexivity].
  rewrite (gt_other_key v x y Hx E). reflexivity.
Qed.

Lemma filter_sort : forall v l,
  List.filter (has_key Date_parse key v) (sort gt l)
  = List.filter (has_key Date_parse key v) l.
Proof.
  intros v l. induction l as [|x l IH]; [reflexivity|].
  simpl sort. rewrite filter_insert_sorted. simpl. rewrite IH.
  reflexivity.
Qed.

End SortedOutput.

(** X16: when every visible booking has a finite sort key (a finite total;
    a timestamp that [Date.parse] reads as a finite number or rejects),
    [sortedVisibleItems] is in order -- each booking's key is at most
    ([ASC]) or at least ([DESC]) the key of every booking after it -- and
    the sort is stable: the bookings that share a key appear in the order
    they have in [visibleItems], local ones before server ones. *)
Theorem sorted_in_order_and_stable :
  forall (Date_parse : string -> number) (s : BookingsState),
  Forall (finite_key Date_parse (sortKey s)) (visibleItems s) ->
  StronglySorted (in_order Date_parse (sortKey s) (sortDir s))
                 (sortedVisibleItems Date_parse s) /\
  forall v : Q,
    List.filter (has_key Date_parse (sortKey s) v)
                (sortedVisibleItems Date_parse s)
    = List.filter (has_key Date_parse (sortKey s) v) (visibleItems s).
Proof.
  intros dp s Hfin. unfold sortedVisibleItems. split.
  - apply sort_sorted. exact Hfin.
  - intros v. apply filter_sort.
Qed.

Lemma sorted_in_order_and_stable_witness :
  Forall (finite_key Sample.no_dates TOTAL)
         (visibleItems (state (setSort TOTAL Sample.loaded))) /\
  sortedVisibleItems Sample.no_dates (state (setSort TOTAL Sample.loaded))
    = [Sample.b2; Sample.b1] /\
  StronglySorted (in_order Sample.no_dates TOTAL DESC)
                 [Sample.b2; Sample.b1].
Proof.
  assert (Hfin : Forall (finite_key Sample.no_dates TOTAL)
                        (visibleItems (state (setSort TOTAL Sample.loaded)))).
  { repeat constructor; eexists; reflexivity. }
  split; [exact Hfin|]. split; [vm_compute; reflexivity|].
  exact (proj1 (sorted_in_order_and_stable Sample.no_dates
                  (state (setSort TOTAL Sample.loaded)) Hfin)).
Defined.

(* ------------------------------------------------------------------ *)
(** ** Page range and page navigation *)
(* ------------------------------------------------------------------ *)

Section Paging.

Local Open Scope Z_scope.

Lemma of_Z_inj : forall a b, Num.of_Z a = Num.of_Z b -> a = b.
Proof. intros a b H. injection H as H. exact H. Qed.

Lemma add_of_Z : forall a b,
  Num.add (Num.of_Z a) (Num.of_Z b) = Num.of_Z (a + b).
Proof.
  intros a b. cbv [Num.add Num.of_Z Qplus inject_Z Qnum Qden Pos.mul].
  do 2 f_equal. ring.
Qed.

Lemma sub_of_Z : forall a b,
  Num.sub (Num.of_Z a) (Num.of_Z b) = Num.of_Z (a - b).
Proof.
  intros a b.
  cbv [Num.sub Num.neg Num.add Num.of_Z Qplus Qopp inject_Z Qnum Qden
       Pos.mul].
  do 2 f_equal. ring.
Qed.

Lemma mul_of_Z : forall a b,
  Num.mul (Num.of_Z a) (Num.of_Z b) = Num.of_Z (a * b).
Proof. intros a b. reflexivity. Qed.

Lemma min_of_Z : forall a b,
  Num.min (Num.of_Z a) (Num.of_Z b) = Num.of_Z (Z.min a b).
Proof.
  intros a b. unfold Num.min, Num.of_Z, Num.gtb, Qle_bool, inject_Z. simpl.
  rewrite !Z.mul_1_r.
  destruct (Z.leb_spec a b) as [H|H]; simpl.
  - rewrite Z.min_l by lia. reflexivity.
  - rewrite Z.min_r by lia. reflexivity.
Qed.

Lemma totalPages_value : forall dp s n,
  0 < n -> pageSize s = Num.of_Z n ->
  totalPages dp s
  = Num.of_Z (Z.max 1 ((Z.of_nat (List.length (sortedVisibleItems dp s))
                        + n - 1) / n)).
Proof.
  intros dp s n Hn Hsize. unfold totalPages. rewrite Hsize.
  unfold Num.of_nat. rewrite div_of_Z by exact Hn.
  unfold Num.ceil, Num.one. rewrite max_of_Z, Qceiling_div by exact Hn.
  reflexivity.
Qed.

Lemma pages_cover : forall len n,
  0 < n -> 0 <= len ->
  let pages := Z.max 1 ((len + n - 1) / n) in
  len <= pages * n /\ (0 < len -> (pages - 1) * n < len).
Proof.
  intros len n Hn Hlen pages.
  pose proof (Z.div_mod (len + n - 1) n ltac:(lia)) as H1.
  pose proof (Z.mod_pos_bound (len + n - 1) n Hn) as H2.
  subst pages. split; [nia|]. intros Hpos.
  assert (1 <= (len + n - 1) / n).
  { apply Z.div_le_lower_bound; lia. }
  rewrite Z.max_r by lia. nia.
Qed.

Lemma pageRange_value : forall dp s (n : Z) (p : nat),
  (0 < List.length (sortedVisibleItems dp s))%nat ->
  pageSize s = Num.of_Z n ->
  pageRange dp (with_page (Num.of_nat p) s)
  = mkPageRange
      (Num.of_Z ((Z.of_nat p - 1) * n + 1))
      (Num.of_Z (Z.min (Z.of_nat p * n)
                       (Z.of_nat (List.length (sortedVisibleItems dp s)))))
      (Num.of_Z (Z.of_nat (List.length (sortedVisibleItems dp s)))).
Proof.
  intros dp s n p Hrows Hsize. unfold pageRange.
  rewrite sortedVisibleItems_page.
  change (page (with_page (Num.of_nat p) s)) with (Num.of_nat p).
  change (pageSize (with_page (Num.of_nat p) s)) with (pageSize s).
  rewrite Hsize.
  destruct (List.length (sortedVisibleItems dp s)) as [|k] eqn:E;
    [inversion Hrows|].
  unfold Num.of_nat, Num.one.
  rewrite sub_of_Z, !mul_of_Z, add_of_Z, min_of_Z. reflexivity.
Qed.

(** X17: on a page that exists, the range shown agrees with the rows
    shown.  With [pageSize] the positive integer [n], [totalPages] equal to
    [pages], rows to show, and [page] an integer [p] between 1 and [pages]:
    [pageRange] is [(p-1)n + 1] to [min(pn, rows)] of [rows], the range is
    not empty, it lies within [1..rows], and
    [pagedSortedVisibleItems] has exactly [to - from + 1] rows, at most
    [n]. *)
Theorem page_range_matches_rows :
  forall (Date_parse : string -> number) (s : BookingsState) (n pages : Z)
         (p : nat),
  0 < n ->
  pageSize s = Num.of_Z n ->
  totalPages Date_parse s = Num.of_Z pages ->
  (0 < List.length (sortedVisibleItems Date_parse s))%nat ->
  1 <= Z.of_nat p <= pages ->
  let rows := Z.of_nat (List.length (sortedVisibleItems Date_parse s)) in
  let from := (Z.of_nat p - 1) * n + 1 in
  let to := Z.min (Z.of_nat p * n) rows in
  pageRange Date_parse (with_page (Num.of_nat p) s)
    = mkPageRange (Num.of_Z from) (Num.of_Z to) (Num.of_Z rows) /\
  1 <= from <= to /\ to <= rows /\
  Z.of_nat (List.length
              (pagedSortedVisibleItems Date_parse
                 (with_page (Num.of_nat p) s)))
    = to - from + 1 /\
  to - from + 1 <= n.
Proof.
  intros dp s n pages p Hn Hsize Hpages Hrows Hp rows from to.
  rewrite (totalPages_value dp s n Hn Hsize) in Hpages.
  apply of_Z_inj in Hpages.
  destruct (pages_cover rows n Hn ltac:(subst rows; lia)) as [_ Hlast].
  cbv zeta in Hlast. fold rows in Hpages. rewrite Hpages in Hlast.
  assert (Hr : 0 < rows) by (subst rows; lia).
  specialize (Hlast Hr).
  assert (Hfrom : from <= rows) by (subst from; nia).
  split; [apply pageRange_value; assumption|].
  split; [subst from to; split; [nia|]; apply Z.min_glb; nia|].
  split; [subst to; lia|].
  split.
  - rewrite (paged_chunk dp s n p Hn ltac:(lia) Hsize).
    rewrite length_firstn, length_skipn. fold rows.
    subst from to. nia.
  - subst from to. nia.
Qed.

Lemma page_range_matches_rows_witness :
  0 < 1 /\
  pageSize Sample.one_per_page = Num.of_Z 1 /\
  totalPages Sample.no_dates Sample.one_per_page = Num.of_Z 2 /\
  (0 < List.length
         (sortedVisibleItems Sample.no_dates Sample.one_per_page))%nat /\
  1 <= Z.of_nat 2 <= 2 /\
  pageRange Sample.no_dates (with_page (Num.of_nat 2) Sample.one_per_page)
    = mkPageRange (Num.of_Z 2) (Num.of_Z 2) (Num.of_Z 2).
Proof.
  assert (Hrows : (0 < List.length
                         (sortedVisibleItems Sample.no_dates
                                             Sample.one_per_page))%nat).
  { vm_compute. lia. }
  split; [reflexivity|]. split; [reflexivity|]. split; [reflexivity|].
  split; [exact Hrows|]. split; [simpl; lia|].
  exact (proj1 (page_range_matches_rows Sample.no_dates
                  Sample.one_per_page 1 2 2 eq_refl eq_refl eq_refl Hrows
                  ltac:(simpl; lia))).
Defined.

(** X18: [page] is not clamped to the pages that exist.  With [pageSize]
    the positive integer [n], a [page] [p] beyond [totalPages] -- with
    [p * n] within the safe integers, where the host computes the page
    bounds exactly -- shows no row at all although rows exist, and its
    range starts after it ends. *)
Theorem page_beyond_the_last_is_empty :
  forall (Date_parse : string -> number) (s : BookingsState) (n pages : Z)
         (p : nat),
  0 < n ->
  pageSize s = Num.of_Z n ->
  totalPages Date_parse s = Num.of_Z pages ->
  pages < Z.of_nat p ->
  Z.of_nat p * n <= MAX_SAFE_INTEGER ->
  pagedSortedVisibleItems Date_parse (with_page (Num.of_nat p) s) = [] /\
  ((0 < List.length (sortedVisibleItems Date_parse s))%nat ->
   let rows := Z.of_nat (List.length (sortedVisibleItems Date_parse s)) in
   pageRange Date_parse (with_page (Num.of_nat p) s)
     = mkPageRange (Num.of_Z ((Z.of_nat p - 1) * n + 1)) (Num.of_Z rows)
                   (Num.of_Z rows) /\
   rows < (Z.of_nat p - 1) * n + 1).
Proof.
  intros dp s n pages p Hn Hsize Hpages Hp _.
  rewrite (totalPages_value dp s n Hn Hsize) in Hpages.
  apply of_Z_inj in Hpages.
  destruct (pages_cover
              (Z.of_nat (List.length (sortedVisibleItems dp s))) n Hn
              ltac:(lia)) as [Hcover _].
  cbv zeta in Hcover. rewrite Hpages in Hcover.
  assert (H1 : 1 <= pages) by lia.
  split.
  - rewrite (paged_chunk dp s n p Hn ltac:(lia) Hsize).
    rewrite skipn_all2; [apply firstn_nil|]. nia.
  - intros Hrows rows. split; [|subst rows; nia].
    rewrite (pageRange_value dp s n p Hrows Hsize). fold rows.
    rewrite Z.min_r by (subst rows; nia). reflexivity.
Qed.

Lemma page_beyond_the_last_is_empty_witness :
  0 < 1 /\
  pageSize Sample.one_per_page = Num.of_Z 1 /\
  totalPages Sample.no_dates Sample.one_per_page = Num.of_Z 2 /\
  2 < Z.of_nat 3 /\
  Z.of_nat 3 * 1 <= MAX_SAFE_INTEGER /\
  pagedSortedVisibleItems Sample.no_dates
    (with_page (Num.of_nat 3) Sample.one_per_page) = [] /\
  pageRange Sample.no_dates (with_page (Num.of_nat 3) Sample.one_per_page)
    = mkPageRange (Num.of_Z 3) (Num.of_Z 2) (Num.of_Z 2).
Proof.
  assert (Hsafe : Z.of_nat 3 * 1 <= MAX_SAFE_INTEGER)
    by (vm_compute; discriminate).
  assert (Hrows : (0 < List.length
                         (sortedVisibleItems Sample.no_dates
                                             Sample.one_per_page))%nat).
  { vm_compute. lia. }
  destruct (page_beyond_the_last_is_empty Sample.no_dates
              Sample.one_per_page 1 2 3 eq_refl eq_refl eq_refl
              eq_refl Hsafe) as (Hempty & Hrange).
  split; [reflexivity|]. split; [reflexivity|]. split; [reflexivity|].
  split; [reflexivity|]. split; [exact Hsafe|].
  split; [exact Hempty|].
  exact (proj1 (Hrange Hrows)).
Defined.

Lemma with_page_same : forall s, with_page (page s) s = s.
Proof. intros []. reflexivity. Qed.

Lemma update_page_same : forall w p,
  page (state w) = p -> update (with_page p) w = w.
Proof.
  intros [s ts n subs ls] p H. unfold update. simpl in *.
  rewrite <- H, with_page_same. reflexivity.
Qed.

(** X19: [nextPage] and [prevPage] move by one page and stop at the ends.
    With [pageSize] a positive integer, [page] an integer [p] within the
    safe integers (where the host adds and subtracts 1 exactly) and
    [totalPages] equal to [pages], [nextPage] sets the page to
    [min(p+1, pages)] and [prevPage] to [max(1, p-1)], and neither changes
    anything else in the store.  So a page within [1..pages] stays within
    it, [nextPage] on the last page and [prevPage] on page 1 leave the
    store as it is, and [prevPage] undoes [nextPage] on every page but the
    last. *)
Theorem page_navigation_is_clamped :
  forall (Date_parse : string -> number) (w : Store) (n p pages : Z),
  0 < n ->
  pageSize (state w) = Num.of_Z n ->
  - MAX_SAFE_INTEGER <= p <= MAX_SAFE_INTEGER ->
  page (state w) = Num.of_Z p ->
  totalPages Date_parse (state w) = Num.of_Z pages ->
  nextPage Date_parse w
    = update (with_page (Num.of_Z (Z.min (p + 1) pages))) w /\
  prevPage w = update (with_page (Num.of_Z (Z.max 1 (p - 1)))) w /\
  totalPages Date_parse (state (nextPage Date_parse w)) = Num.of_Z pages /\
  totalPages Date_parse (state (prevPage w)) = Num.of_Z pages /\
  (p = pages -> nextPage Date_parse w = w) /\
  (p = 1 -> prevPage w = w) /\
  (1 <= p < pages -> prevPage (nextPage Date_parse w) = w) /\
  (1 <= p <= pages ->
   1 <= Z.min (p + 1) pages <= pages /\ 1 <= Z.max 1 (p - 1) <= pages).
Proof.
  intros dp w n p pages _ _ _ Hp Ht.
  assert (Hnext : nextPage dp w
                  = update (with_page (Num.of_Z (Z.min (p + 1) pages))) w).
  { unfold nextPage, update. rewrite Ht. cbv beta. rewrite Hp.
    unfold Num.one. rewrite add_of_Z, min_of_Z. reflexivity. }
  assert (Hprev : forall w0 p0, page (state w0) = Num.of_Z p0 ->
            prevPage w0
            = update (with_page (Num.of_Z (Z.max 1 (p0 - 1)))) w0).
  { intros w0 p0 H0. unfold prevPage, update. cbv beta. rewrite H0.
    unfold Num.one. rewrite sub_of_Z, max_of_Z. reflexivity. }
  split; [exact Hnext|]. split; [apply Hprev; exact Hp|].
  split; [rewrite Hnext; exact Ht|].
  split; [rewrite (Hprev w p Hp); exact Ht|].
  split; [|split; [|split; [|intros Hr; lia]]].
  - intros ->. rewrite Hnext. apply update_page_same.
    rewrite Hp. f_equal. lia.
  - intros ->. rewrite (Hprev w 1 Hp). apply update_page_same.
    rewrite Hp. reflexivity.
  - intros Hr. rewrite Hnext.
    rewrite (Hprev (update (with_page (Num.of_Z (Z.min (p + 1) pages))) w)
                   (Z.min (p + 1) pages) eq_refl).
    replace (Z.max 1 (Z.min (p + 1) pages - 1)) with p by lia.
    destruct w as [s ts n0 subs ls]. unfold update. simpl in *.
    f_equal. destruct s. simpl in *. subst. reflexivity.
Qed.

Lemma page_navigation_is_clamped_witness :
  0 < 1 /\
  pageSize (state (setPageSize (Num.of_Z 1) Sample.loaded)) = Num.of_Z 1 /\
  - MAX_SAFE_INTEGER <= 1 <= MAX_SAFE_INTEGER /\
  page (state (setPageSize (Num.of_Z 1) Sample.loaded)) = Num.of_Z 1 /\
  totalPages Sample.no_dates (state (setPageSize (Num.of_Z 1) Sample.loaded))
    = Num.of_Z 2 /\
  1 <= 1 < 2 /\
  prevPage (setPageSize (Num.of_Z 1) Sample.loaded)
    = setPageSize (Num.of_Z 1) Sample.loaded /\
  prevPage (nextPage Sample.no_dates
              (setPageSize (Num.of_Z 1) Sample.loaded))
    = setPageSize (Num.of_Z 1) Sample.loaded.
Proof.
  assert (Hsafe : - MAX_SAFE_INTEGER <= 1 <= MAX_SAFE_INTEGER)
    by (vm_compute; split; discriminate).
  destruct (page_navigation_is_clamped Sample.no_dates
              (setPageSize (Num.of_Z 1) Sample.loaded) 1 1 2
              eq_refl eq_refl Hsafe eq_refl eq_refl)
    as (_ & _ & _ & _ & _ & Hfirst & Hback & _).
  split; [reflexivity|]. split; [reflexivity|]. split; [exact Hsafe|].
  split; [reflexivity|]. split; [reflexivity|]. split; [lia|].
  split; [apply Hfirst; reflexivity | apply Hback; lia].
Defined.

(** Deleting the only row of the last page leaves [page] where it was. *)
Example delete_leaves_the_page :
  let w := delete "1" (nextPage Sample.no_dates
                         (setPageSize (Num.of_Z 1) Sample.loaded)) in
  page (state w) = Num.of_Z 2 /\
  totalPages Sample.no_dates (state w) = Num.of_Z 1 /\
  pagedSortedVisibleItems Sample.no_dates (state w) = [].
Proof. vm_compute. repeat split. Qed.

End Paging.

(* ------------------------------------------------------------------ *)
(** ** The pages *)
(* ------------------------------------------------------------------ *)

Section Pages.

Variable Date_parse : string -> number.
Variable toISOString : number -> string.

(** X20: the create form sends at most one request, and only for a
    complete form with a readable date.  If a control is empty or the text
    [date T time :00] does not parse, [submit] leaves the store as it is and
    does not navigate.  Otherwise it navigates and subscribes to exactly one
    create call, whose request carries the trimmed name and address, the
    ISO text of the parsed instant, [paid = false] and a total of 220 for
    unit type [2bed] and 180 for any other; no booking is added until the
    server answers. *)
Theorem submit_sends_one_valid_request :
  forall (v : BookingCreatePage.FormValue) (w : Store),
  let t := Date_parse (BookingCreatePage.scheduledDate v ++ "T"
                       ++ BookingCreatePage.scheduledTime v ++ ":00") in
  let ready := negb (BookingCreatePage.invalid v)
               && negb (BookingCreatePage.isNaN t) in
  let result := BookingCreatePage.submit Date_parse toISOString v w in
  snd result = ready /\
  (ready = false -> fst result = w) /\
  (ready = true ->
   subscriptions (fst result)
     = (subscriptions w
        ++ [ReqCreate (BookingCreatePage.request toISOString v t)])%list /\
   items (state (fst result)) = items (state w) /\
   loading (state (fst result)) = true /\
   BookingCreatePage.customerName v <> "" /\
   BookingCreatePage.address v <> "" /\
   BookingCreatePage.scheduledDate v <> "" /\
   BookingCreatePage.scheduledTime v <> "" /\
   t <> Num.NaN) /\
  req_customerName (BookingCreatePage.request toISOString v t)
    = trim (BookingCreatePage.customerName v) /\
  req_paid (BookingCreatePage.request toISOString v t) = Some false /\
  req_totalCad (BookingCreatePage.request toISOString v t)
    = (if String.eqb (BookingCreatePage.unitType v) "2bed"
       then Num.of_Z 220 else Num.of_Z 180).
Proof.
  intros v w t ready result. subst result ready.
  unfold BookingCreatePage.submit. fold t.
  destruct (BookingCreatePage.invalid v) eqn:Einv; simpl.
  - split; [reflexivity|]. split; [reflexivity|].
    split; [discriminate|]. repeat split.
  - destruct (BookingCreatePage.isNaN t) eqn:Enan; simpl.
    + split; [reflexivity|]. split; [reflexivity|].
      split; [discriminate|]. repeat split.
    + split; [reflexivity|]. split; [discriminate|].
      split; [|repeat split]. intros _.
      unfold BookingCreatePage.invalid in Einv.
      apply negb_false_iff in Einv.
      repeat (apply andb_true_iff in Einv; destruct Einv as [Einv ?]).
      unfold BookingCreatePage.required in *.
      repeat split; intros Heq; rewrite Heq in *; discriminate.
Qed.

Lemma nth_error_app_here : forall (A : Type) (l r : list A),
  nth_error (l ++ r)%list (List.length l) = nth_error r 0.
Proof.
  intros A l r. induction l as [|x l IH]; simpl; [reflexivity | exact IH].
Qed.

Lemma remove_nth_app_here : forall (A : Type) (l r : list A),
  remove_nth (List.length l) (l ++ r)%list = (l ++ remove_nth 0 r)%list.
Proof.
  intros A l r. induction l as [|x l IH]; simpl.
  - destruct r; reflexivity.
  - rewrite IH. reflexivity.
Qed.

Lemma complete_here : forall s ts n (l : list Request) r rest ls resp,
  complete (List.length l) resp (mkStore s ts n (l ++ r :: rest)%list ls)
  = callback r resp (mkStore s ts n (l ++ rest)%list ls).
Proof.
  intros. unfold complete. simpl.
  rewrite nth_error_app_here, remove_nth_app_here. reflexivity.
Qed.

Lemma complete_next : forall s ts n (l : list Request) r0 r rest ls resp,
  complete (S (List.length l)) resp
           (mkStore s ts n (l ++ r0 :: r :: rest)%list ls)
  = callback r resp (mkStore s ts n (l ++ r0 :: rest)%list ls).
Proof.
  intros.
  replace (S (List.length l)) with (List.length (l ++ [r0])%list)
    by (rewrite length_app; simpl; lia).
  replace (l ++ r0 :: r :: rest)%list with ((l ++ [r0]) ++ r :: rest)%list
    by (rewrite <- app_assoc; reflexivity).
  rewrite complete_here. rewrite <- app_assoc. reflexivity.
Qed.

(** X21: the create request races with the list page.  From a store
    without bookings, a successful [submit] followed by the construction of
    the list page leaves two calls in flight, the create and a list call.
    The store does not reconcile their answers: if the created booking
    arrives first, the list that arrives later replaces it and
    [serverItems] is that list; if the list arrives first, the created
    booking is put in front of it, also when the list already holds it. *)
Theorem create_races_with_auto_load :
  forall (v : BookingCreatePage.FormValue) (w : Store)
         (created : Booking) (l : list Booking),
  items (state w) = [] ->
  snd (BookingCreatePage.submit Date_parse toISOString v w) = true ->
  let k := List.length (subscriptions w) in
  let w2 := BookingsListPage.construct
              (fst (BookingCreatePage.submit Date_parse toISOString v w)) in
  (exists req,
     subscriptions w2 = (subscriptions w ++ [ReqCreate req; ReqList])%list) /\
  (exists wa wb,
     complete k (BookingOk created) w2 = Some wa /\
     complete k (ListOk l) wa = Some wb /\
     serverItems (state wb) = l /\
     loading (state wb) = false /\
     subscriptions wb = subscriptions w) /\
  (exists wa wb,
     complete (S k) (ListOk l) w2 = Some wa /\
     complete k (BookingOk created) wa = Some wb /\
     serverItems (state wb) = created :: l /\
     loading (state wb) = false /\
     subscriptions wb = subscriptions w).
Proof.
  intros v w created l Hempty Hnav k w2. subst w2 k.
  unfold BookingCreatePage.submit in *.
  destruct (BookingCreatePage.invalid v); [discriminate Hnav|].
  destruct (BookingCreatePage.isNaN _); [discriminate Hnav|].
  clear Hnav. cbn [fst].
  unfold BookingsListPage.construct.
  change (items (state (create _ w))) with (items (state w)).
  rewrite Hempty. cbn [List.length Nat.eqb].
  destruct w as [s ts n subs ls]. unfold load, create, subscribe, update.
  cbn [state timers nextTimerId subscriptions localStorage].
  rewrite <- app_assoc. cbn [app].
  split; [eexists; reflexivity|]. split.
  - eexists. eexists. split; [rewrite complete_here; reflexivity|].
    split.
    { unfold create_next, update.
      cbn [state timers nextTimerId subscriptions localStorage].
      rewrite complete_here. reflexivity. }
    cbn. rewrite app_nil_r. repeat split.
  - eexists. eexists. split; [rewrite complete_next; reflexivity|].
    split.
    { unfold load_next, update.
      cbn [state timers nextTimerId subscriptions localStorage].
      rewrite complete_here. reflexivity. }
    cbn. rewrite app_nil_r. repeat split.
Qed.

End Pages.

Lemma submit_sends_one_valid_request_witness :
  snd (BookingCreatePage.submit Sample.one_date Sample.one_iso Sample.form
                                Sample.fresh) = true /\
  subscriptions
    (fst (BookingCreatePage.submit Sample.one_date Sample.one_iso
                                   Sample.form Sample.fresh))
  = [ReqCreate (mkCreateBookingRequest "Cy Fox" "5 Elm Rd"
                  "2026-02-01T10:30:00.000Z" (Num.of_Z 220) (Some false))] /\
  fst (BookingCreatePage.submit Sample.one_date Sample.one_iso
         BookingCreatePage.initialValue Sample.fresh) = Sample.fresh.
Proof.
  destruct (submit_sends_one_valid_request Sample.one_date Sample.one_iso
              Sample.form Sample.fresh) as (Hnav & _ & Hready & _).
  destruct (submit_sends_one_valid_request Sample.one_date Sample.one_iso
              BookingCreatePage.initialValue Sample.fresh)
    as (_ & Hidle & _).
  split; [exact Hnav|].
  split; [exact (proj1 (Hready eq_refl)) | exact (Hidle eq_refl)].
Defined.

(** The name control passes [required] with blanks only; the request then
    carries the empty name. *)
Example blank_name_is_sent :
  subscriptions
    (fst (BookingCreatePage.submit Sample.one_date Sample.one_iso
                                   Sample.blank_name_form Sample.fresh))
  = [ReqCreate (mkCreateBookingRequest "" "5 Elm Rd"
                  "2026-02-01T10:30:00.000Z" (Num.of_Z 180) (Some false))].
Proof. vm_compute. reflexivity. Qed.

Lemma create_races_with_auto_load_witness :
  items (state Sample.fresh) = [] /\
  snd (BookingCreatePage.submit Sample.one_date Sample.one_iso Sample.form
                                Sample.fresh) = true /\
  exists wa wb,
    complete 1 (ListOk [Sample.b4])
      (BookingsListPage.construct
         (fst (BookingCreatePage.submit Sample.one_date Sample.one_iso
                                        Sample.form Sample.fresh)))
      = Some wa /\
    complete 0 (BookingOk Sample.b4) wa = Some wb /\
    serverItems (state wb) = [Sample.b4; Sample.b4].
Proof.
  split; [reflexivity|]. split; [reflexivity|].
  destruct (create_races_with_auto_load Sample.one_date Sample.one_iso
              Sample.form Sample.fresh Sample.b4 [Sample.b4]
              eq_refl eq_refl) as (_ & _ & wa & wb & Ha & Hb & Hs & _).
  exists wa, wb. split; [exact Ha|]. split; [exact Hb | exact Hs].
Defined.

(* ------------------------------------------------------------------ *)
(** ** Views under arbitrary numbers *)
(* ------------------------------------------------------------------ *)

Lemma slice_is_a_run : forall (A : Type) (l : list A) (a b : number),
  exists pre post, l = (pre ++ slice l a b ++ post)%list.
Proof.
  intros A l a b. unfold slice.
  set (k := Z.to_nat (relative_index (Z.of_nat (List.length l))
                                     (Num.ToIntegerOrInfinity a))).
  set (c := Z.to_nat (relative_index (Z.of_nat (List.length l))
                                     (Num.ToIntegerOrInfinity b)
                      - relative_index (Z.of_nat (List.length l))
                                       (Num.ToIntegerOrInfinity a))).
  exists (firstn k l), (skipn c (skipn k l)).
  rewrite (firstn_skipn c (skipn k l)), (firstn_skipn k l). reflexivity.
Qed.

(** X22: whatever [page] and [pageSize] are -- fractional, negative, NaN,
    infinite -- the rows of a page are one contiguous run of
    [sortedVisibleItems]: a page never shows a booking that is not visible,
    never reorders rows, and never has more rows than are visible. *)
Theorem a_page_is_a_run_of_rows :
  forall (Date_parse : string -> number) (s : BookingsState),
  (exists pre post,
     sortedVisibleItems Date_parse s
     = (pre ++ pagedSortedVisibleItems Date_parse s ++ post)%list) /\
  (forall b, In b (pagedSortedVisibleItems Date_parse s) ->
             In b (visibleItems s) /\ In b (items s)) /\
  List.length (pagedSortedVisibleItems Date_parse s)
    <= List.length (visibleItems s).
Proof.
  intros dp s.
  destruct (slice_is_a_run _ (sortedVisibleItems dp s)
              (Num.mul (Num.sub (page s) Num.one) (pageSize s))
              (Num.add (Num.mul (Num.sub (page s) Num.one) (pageSize s))
                       (pageSize s)))
    as (pre & post & Hrun).
  fold (pagedSortedVisibleItems dp s) in Hrun.
  assert (Hperm : Permutation (sortedVisibleItems dp s) (visibleItems s)).
  { unfold sortedVisibleItems. apply sort_perm. }
  split; [exists pre, post; exact Hrun|]. split.
  - intros b Hb.
    assert (Hv : In b (visibleItems s)).
    { apply (Permutation_in _ Hperm). rewrite Hrun.
      apply in_or_app. right. apply in_or_app. left. exact Hb. }
    split; [exact Hv|]. apply visibleItems_In in Hv. tauto.
  - rewrite <- (Permutation_length Hperm).
    apply (f_equal (@List.length Booking)) in Hrun.
    rewrite !length_app in Hrun. lia.
Qed.

Section PageCount.

Local Open Scope Z_scope.

Lemma Qceiling_quotient_le : forall (rows : Z) (q : Q),
  0 <= rows -> (1 <= q)%Q ->
  0 <= Qceiling (inject_Z rows / q) <= rows.
Proof.
  intros rows q Hrows Hq.
  assert (Hr : (0 <= inject_Z rows)%Q).
  { unfold Qle, inject_Z. simpl. lia. }
  assert (Hpos : (0 < q)%Q) by lra.
  assert (Hlo : (0 <= inject_Z rows / q)%Q).
  { apply Qle_shift_div_l; [exact Hpos|]. lra. }
  assert (Hhi : (inject_Z rows / q <= inject_Z rows)%Q).
  { apply Qle_shift_div_r; [exact Hpos|]. nra. }
  split.
  - change 0 with (Qceiling (inject_Z 0)).
    apply Qceiling_resp_le. exact Hlo.
  - rewrite <- (Qceiling_Z rows) at 2.
    apply Qceiling_resp_le. exact Hhi.
Qed.

(** X23: with a [pageSize] of at least 1 -- an integer or not, finite or
    not -- [totalPages] is a whole number of pages, at least 1 and at most
    the number of rows (1 when there is none): a fractional page size that
    was restored from localStorage cannot make it NaN, infinite or
    fractional. *)
Theorem a_page_size_from_one_gives_a_page_count :
  forall (Date_parse : string -> number) (s : BookingsState),
  at_least_one (pageSize s) = true ->
  exists pages : Z,
    1 <= pages
      <= Z.max 1 (Z.of_nat (List.length (sortedVisibleItems Date_parse s)))
    /\ totalPages Date_parse s = Num.of_Z pages.
Proof.
  intros dp s Hone. unfold totalPages.
  destruct (pageSize s) as [| | |q] eqn:E; try discriminate.
  - (* an infinite page size *)
    exists 1. split; [lia|]. reflexivity.
  - simpl in Hone. apply Qle_bool_iff in Hone.
    assert (Hq : (Qnum q ?= 0) = Gt).
    { apply Z.compare_gt_iff. unfold Qle in Hone. simpl in Hone. lia. }
    unfold Num.div, Num.of_nat, Num.of_Z, Num.Qsign. rewrite Hq.
    unfold Num.ceil, Num.one. rewrite max_of_Z.
    eexists. split; [|reflexivity].
    pose proof (Qceiling_quotient_le
                  (Z.of_nat (List.length (sortedVisibleItems dp s))) q
                  ltac:(lia) Hone).
    lia.
Qed.

End PageCount.

Lemma a_page_size_from_one_gives_a_page_count_witness :
  at_least_one
    (pageSize (with_pageSize (Num.Fin (3 # 2)) (state Sample.loaded)))
    = true /\
  totalPages Sample.no_dates
    (with_pageSize (Num.Fin (3 # 2)) (state Sample.loaded)) = Num.of_Z 2.
Proof.
  split; [reflexivity|].
  destruct (a_page_size_from_one_gives_a_page_count Sample.no_dates
              (with_pageSize (Num.Fin (3 # 2)) (state Sample.loaded))
              eq_refl) as (pages & _ & H).
  rewrite H. vm_compute in H. injection H as H. rewrite <- H. reflexivity.
Defined.

(* ------------------------------------------------------------------ *)
(** ** View settings and data *)
(* ------------------------------------------------------------------ *)

(** X24: changing the view never touches the data.  The four setters and
    the three page moves leave both collections, the undo slot, [loading],
    [error], the timers and the calls in flight as they are, so [items] and
    [counts] are unchanged; the setters put the list back on page 1. *)
Theorem view_settings_keep_the_data :
  forall (Date_parse : string -> number) (w : Store) (ev : Event)
         (w1 : Store),
  is_view_event ev = true ->
  step Date_parse w ev = Some w1 ->
  localItems (state w1) = localItems (state w) /\
  serverItems (state w1) = serverItems (state w) /\
  pendingDelete (state w1) = pendingDelete (state w) /\
  loading (state w1) = loading (state w) /\
  error (state w1) = error (state w) /\
  timers w1 = timers w /\
  subscriptions w1 = subscriptions w /\
  counts (state w1) = counts (state w) /\
  (is_setter ev = true -> page (state w1) = Num.of_Z 1).
Proof.
  intros dp w ev w1 Hv Hstep.
  destruct ev; simpl in Hv; try discriminate; simpl in Hstep;
    injection Hstep as <-; cbn; repeat split; discriminate.
Qed.

Lemma view_settings_keep_the_data_witness :
  is_view_event (EvSetFilter FilterNEW) = true /\
  exists w1,
    step Sample.no_dates Sample.loaded (EvSetFilter FilterNEW) = Some w1 /\
    serverItems (state w1) = [Sample.b1; Sample.b2] /\
    counts (state w1) = mkCounts 2 1 1.
Proof.
  split; [reflexivity|].
  eexists. split; [reflexivity|].
  destruct (view_settings_keep_the_data Sample.no_dates Sample.loaded
              (EvSetFilter FilterNEW) _ eq_refl eq_refl)
    as (_ & Hs & _ & _ & _ & _ & _ & Hc & _).
  split; [exact Hs | rewrite Hc; reflexivity].
Defined.
